(** * SCAutolib: the restore journal and the cleanup engine

    A shallow embedding of [SCAutolib/src/env.py] and of the [cleanup_ca]
    command of [SCAutolib/src/env-cli.py].

    The Python code is effectful: it reads and writes files, asks the
    system about accounts, runs external programs and logs.  The embedding
    threads an explicit [host] through every function and lets a function
    end with a Python exception ([Raise]); what was done before the
    exception stays done, as in Python. *)

From stdpp Require Import gmap strings list fin_maps.
From Stdlib Require Import ZArith Ascii String.

Set Warnings "-register-all".
Open Scope Z_scope.

(** ** Values of a YAML document

    [yaml.load] yields [None], booleans, integers, strings, lists and
    dicts with string keys.  Floats are left out.  A value is a tree; the
    sharing that YAML anchors and aliases bring is kept with the document
    (see [content]). *)

Inductive yaml : Type :=
  | YNull
  | YBool (b : bool)
  | YInt (z : Z)
  | YStr (s : string)
  | YList (l : list yaml)
  | YDict (d : gmap string yaml).

(** Python truthiness, as used by [if backup_dir:] and [assert config_data]. *)
Definition truthy (v : yaml) : bool :=
  match v with
  | YNull => false
  | YBool b => b
  | YInt z => negb (z =? 0)
  | YStr s => negb (String.eqb s "")
  | YList l => match l with [] => false | _ => true end
  | YDict d => negb (bool_decide (d = ∅))
  end.

(** [v == "s"] for a string literal. *)
Definition is_str (s : string) (v : yaml) : bool :=
  match v with YStr t => String.eqb t s | _ => false end.

(** ** Exceptions *)

Inductive exn : Type :=
  | KeyError (k : string)
  | TypeError
  | AttributeError
  | IndexError
  | AssertionError
  | FileNotFoundError (p : string)
  | IsADirectoryError (p : string)
  | NotADirectoryError (p : string)
  | FileExistsError (p : string)
  | SameFileError (p : string)
  | YAMLError (p : string)
  | ParsingError (p : string)
  | ValueError
  | UndefinedValueError (k : string)
  | UnspecifiedParameter (k : string)
  | CalledProcessError (cmd : list string) (rc : Z)
  | SystemExit (code : Z)
  | BackupFailed (p : string).

(** ** The host

    The file system is a flat map from absolute paths to nodes; the
    entries below a directory [d] are the keys that extend [d +:+ "/"].
    Paths are compared as written (no normalisation, no links), the parent
    of a path that is written to is taken to exist, and permissions and
    device errors are not modelled.

    A file's content is kept in the form its writer gave it: [yaml.dump]
    stores a document, [ConfigParser.write] an ini structure, the
    templates of [create_cnf] and friends a named template with its
    arguments; [yaml.load] and [ConfigParser.read_file] give the structure
    back and reject the other forms. *)

Abbreviation ini := (list (string * list (string * option string))).

(** A place in a value: the keys and indices that lead to it. *)
Inductive selector : Type :=
  | AtKey (k : string)
  | AtIndex (i : nat).

Abbreviation place := (list selector).

(** [YamlShared y aliases] is a document in which the nodes at the places
    [aliases] are written as YAML aliases of the node under the top-level
    key "restore" (or the other way round): [yaml.load] makes them one and
    the same Python object as [data["restore"]].  [Yaml y] is a document
    without such aliases.  Sharing among other nodes does not show in what
    the code below does and is not recorded. *)
Inductive content : Type :=
  | Text (s : string)
  | Yaml (y : yaml)
  | YamlShared (y : yaml) (aliases : list place)
  | Ini (c : ini)
  | Template (name : string) (args : list yaml).

Inductive node : Type :=
  | File (c : content)
  | Dir.

Inductive level : Type := DEBUG | WARNING | ERROR.

(** A record of [env_logger]: the level, the message with [{}] where the
    f-string interpolates, and the interpolated values. *)
Record logrec : Type := Log { lvl : level; msg : string; args : list yaml }.

(** What the code did to the system, in the order it did it. *)
Inductive event : Type :=
  | EvWrite (path : string) (c : content)
  | EvChmod (path : string) (mode : Z)
  | EvMkdir (path : string)
  | EvCopyfile (src dst : string)
  | EvCopytree (src dst : string)
  | EvRemove (path : string)
  | EvRmtree (path : string)
  | EvPasswd (username passwd : string)
  | EvExec (cmd : list string) (rc : Z)
  | EvAppend (record : yaml).

(** [env] are the settings [decouple.config] reads, [users] maps an account
    name to its home directory, [programs] is what the programs installed
    on the host (the repository's bash scripts among them) do to files and
    accounts and the status they exit with. *)
Record host : Type := Host {
  env : gmap string string;
  fs : gmap string node;
  users : gmap string string;
  programs : list string → gmap string node → gmap string string →
             Z * gmap string node * gmap string string;
  trace : list event;
  log : list logrec
}.

Definition set_fs (f : gmap string node → gmap string node) (h : host) : host :=
  Host (env h) (f (fs h)) (users h) (programs h) (trace h) (log h).
Definition set_users (f : gmap string string → gmap string string) (h : host) : host :=
  Host (env h) (fs h) (f (users h)) (programs h) (trace h) (log h).
Definition emit (e : event) (h : host) : host :=
  Host (env h) (fs h) (users h) (programs h) (trace h ++ [e]) (log h).
Definition add_log (r : logrec) (h : host) : host :=
  Host (env h) (fs h) (users h) (programs h) (trace h) (log h ++ [r]).

(** ** The monad of effectful Python code *)

Inductive result (A : Type) : Type :=
  | Ok (a : A)
  | Raise (e : exn).
Arguments Ok {A} a.
Arguments Raise {A} e.

Definition M (A : Type) : Type := host → result A * host.

Definition ret {A} (a : A) : M A := λ h, (Ok a, h).
Definition raise {A} (e : exn) : M A := λ h, (Raise e, h).
Definition bind {A B} (m : M A) (k : A → M B) : M B :=
  λ h, match m h with
       | (Ok a, h') => k a h'
       | (Raise e, h') => (Raise e, h')
       end.

#[global] Instance M_ret : MRet M := @ret.
#[global] Instance M_bind : MBind M := λ A B k m, bind m k.

(** [try: m except E: handler], for the exceptions [catches] selects. *)
Definition try_except {A} (m : M A) (catches : exn → bool) (handler : exn → M A) : M A :=
  λ h, match m h with
       | (Raise e, h') => if catches e then handler e h' else (Raise e, h')
       | r => r
       end.

(** [try: m finally: f]: [f] runs in every case; its own exception wins. *)
Definition try_finally {A} (m : M A) (f : M unit) : M A :=
  λ h, match m h with
       | (r, h') => match f h' with
                    | (Ok _, h'') => (r, h'')
                    | (Raise e, h'') => (Raise e, h'')
                    end
       end.

Definition get : M host := λ h, (Ok h, h).
Definition modify (f : host → host) : M unit := λ h, (Ok tt, f h).

(** [for x in l: body x]. *)
Fixpoint for_each {A} (l : list A) (body : A → M unit) : M unit :=
  match l with
  | [] => ret tt
  | x :: rest => body x ;; for_each rest body
  end.

Definition logger (l : level) (m : string) (a : list yaml) : M unit :=
  modify (add_log (Log l m a)).

(** ** Strings and paths *)

(** [s.split(c)] for a one-character separator. *)
Fixpoint split_on (c : ascii) (s : string) : list string :=
  match s with
  | EmptyString => [EmptyString]
  | String a rest =>
      if Ascii.eqb a c then EmptyString :: split_on c rest
      else match split_on c rest with
           | w :: ws => String a w :: ws
           | [] => [String a EmptyString]
           end
  end.

(** [s.split(c, 1)]: cut at the first [c] only. *)
Fixpoint split_first (c : ascii) (s : string) : list string :=
  match s with
  | EmptyString => [EmptyString]
  | String a rest =>
      if Ascii.eqb a c then [EmptyString; rest]
      else match split_first c rest with
           | w :: ws => String a w :: ws
           | [] => [String a EmptyString]
           end
  end.

(** [os.path.split(p)[1]]: what follows the last slash. *)
Definition basename (p : string) : string :=
  List.last (split_on "/" p) EmptyString.

Definition ends_with_slash (p : string) : bool :=
  match List.last (list_ascii_of_string p) "a"%char with
  | "/"%char => true
  | _ => false
  end.

(** [posixpath.join(a, b)]. *)
Definition join (a b : string) : string :=
  if String.prefix "/" b then b
  else if String.eqb a "" || ends_with_slash a then a +:+ b
  else a +:+ "/" +:+ b.

(** [k] is [p] or lies below the directory [p]. *)
Definition under (p k : string) : bool :=
  String.eqb p k || String.prefix (p +:+ "/") k.

Definition reroot (src dst k : string) : string :=
  dst +:+ String.substring (String.length src) (String.length k - String.length src) k.

(** ** Library calls

    Each definition is one call of the Python standard library (or of
    [decouple], [yaml], [pwd]) as the source uses it, with the exceptions
    it raises. *)

(** [decouple.config(item)] without a default. *)
Definition read_env (item : string) : M string :=
  λ h, match env h !! item with
       | Some v => (Ok v, h)
       | None => (Raise (UndefinedValueError item), h)
       end.

(** [os.path.exists(p)]. *)
Definition exists_ (p : string) : M bool :=
  λ h, (Ok (match fs h !! p with Some _ => true | None => false end), h).

(** [open(p, "r")] and reading the whole file. *)
Definition open_r (p : string) : M content :=
  λ h, match fs h !! p with
       | Some (File c) => (Ok c, h)
       | Some Dir => (Raise (IsADirectoryError p), h)
       | None => (Raise (FileNotFoundError p), h)
       end.

(** [with open(p, "w") as f:] followed by the writing of [c]. *)
Definition open_w (p : string) (c : content) : M unit :=
  λ h, match fs h !! p with
       | Some Dir => (Raise (IsADirectoryError p), h)
       | _ => (Ok tt, emit (EvWrite p c) (set_fs (insert p (File c)) h))
       end.

(** [yaml.load(f, Loader=yaml.FullLoader)] on the open file [p]. *)
Definition yaml_load (p : string) : M yaml :=
  c ← open_r p;
  match c with
  | Yaml y => ret y
  | YamlShared y _ => ret y
  | _ => raise (YAMLError p)
  end.

(** The same call where the caller goes on to change the loaded object in
    place: the value, and the places that are the object under "restore". *)
Definition yaml_load_shared (p : string) : M (yaml * list place) :=
  c ← open_r p;
  match c with
  | Yaml y => ret (y, [])
  | YamlShared y aliases => ret (y, aliases)
  | _ => raise (YAMLError p)
  end.

(** What [yaml.dump(data, f)] puts into the file: an object met more than
    once is written with an anchor and aliases. *)
Definition yaml_dump (data : yaml) (aliases : list place) : content :=
  match aliases with
  | [] => Yaml data
  | _ => YamlShared data aliases
  end.

(** [with open(p, "w") as f: yaml.dump(data, f)].  The event names the
    value that was dumped; the sharing is in the file. *)
Definition dump_to (p : string) (data : yaml) (aliases : list place) : M unit :=
  λ h, match fs h !! p with
       | Some Dir => (Raise (IsADirectoryError p), h)
       | _ => (Ok tt, emit (EvWrite p (Yaml data))
                        (set_fs (insert p (File (yaml_dump data aliases))) h))
       end.

(** The value [doc] with [v] at the place [p]. *)
Fixpoint set_place (p : place) (v : yaml) (doc : yaml) : yaml :=
  match p with
  | [] => v
  | AtKey k :: rest =>
      match doc with
      | YDict d => YDict (alter (set_place rest v) k d)
      | _ => doc
      end
  | AtIndex i :: rest =>
      match doc with
      | YList l => YList (alter (set_place rest v) i l)
      | _ => doc
      end
  end.

(** [os.chmod(p, mode)]. *)
Definition chmod (p : string) (mode : Z) : M unit :=
  λ h, match fs h !! p with
       | Some _ => (Ok tt, emit (EvChmod p mode) h)
       | None => (Raise (FileNotFoundError p), h)
       end.

(** [os.remove(p)]. *)
Definition remove (p : string) : M unit :=
  λ h, match fs h !! p with
       | Some (File _) => (Ok tt, emit (EvRemove p) (set_fs (delete p) h))
       | Some Dir => (Raise (IsADirectoryError p), h)
       | None => (Raise (FileNotFoundError p), h)
       end.

(** [shutil.copyfile(src, dst)]. *)
Definition copyfile (src dst : string) : M unit :=
  λ h, match fs h !! src with
       | None => (Raise (FileNotFoundError src), h)
       | Some n =>
           if String.eqb src dst then (Raise (SameFileError src), h)
           else match n, fs h !! dst with
                | Dir, _ => (Raise (IsADirectoryError src), h)
                | File _, Some Dir => (Raise (IsADirectoryError dst), h)
                | File c, _ =>
                    (Ok tt, emit (EvCopyfile src dst) (set_fs (insert dst (File c)) h))
                end
       end.

(** The file system without [p] and without what lies below it. *)
Definition rmtree_fs (p : string) (m : gmap string node) : gmap string node :=
  filter (λ kn, under p kn.1 = false) m.

(** [shutil.rmtree(p, ignore_errors=True)]: a tree is removed, anything
    else (a missing path, a plain file) is an error and is ignored. *)
Definition rmtree_ignore_errors (p : string) : M unit :=
  λ h, match fs h !! p with
       | Some Dir => (Ok tt, emit (EvRmtree p) (set_fs (rmtree_fs p) h))
       | _ => (Ok tt, h)
       end.

(** The file system with the tree at [src] copied to [dst]. *)
Definition copytree_fs (src dst : string) (m : gmap string node) : gmap string node :=
  list_to_map
    (map (λ kn, (reroot src dst kn.1, kn.2))
         (filter (λ kn, under src kn.1 = true) (map_to_list m))) ∪ m.

(** [shutil.copytree(src, dst)]. *)
Definition copytree (src dst : string) : M unit :=
  λ h, match fs h !! src with
       | None => (Raise (FileNotFoundError src), h)
       | Some (File _) => (Raise (NotADirectoryError src), h)
       | Some Dir =>
           match fs h !! dst with
           | Some _ => (Raise (FileExistsError dst), h)
           | None => (Ok tt, emit (EvCopytree src dst) (set_fs (copytree_fs src dst) h))
           end
       end.

(** [Path(p).mkdir(parents=True, exist_ok=True)]. *)
Definition mkdir_p (p : string) : M unit :=
  λ h, match fs h !! p with
       | Some (File _) => (Raise (FileExistsError p), h)
       | Some Dir => (Ok tt, h)
       | None => (Ok tt, emit (EvMkdir p) (set_fs (insert p Dir) h))
       end.

(** [pwd.getpwnam(name)]: the entry, here the home directory. *)
Definition getpwnam (name : string) : M string :=
  λ h, match users h !! name with
       | Some home => (Ok home, h)
       | None => (Raise (KeyError name), h)
       end.

(** Running a program and waiting for its exit status: what it does to
    files and accounts, and the status, are the host's. *)
Definition external (cmd : list string) : M Z :=
  λ h, match programs h cmd (fs h) (users h) with
       | (rc, fs', users') =>
           (Ok rc, emit (EvExec cmd rc) (set_fs (λ _, fs') (set_users (λ _, users') h)))
       end.

Definition run_program (cmd : list string) : M Z := external cmd.

(** [subprocess.check_output(cmd, encoding="utf-8")]; the output is not
    used by the code modelled here. *)
Definition check_output (cmd : list string) : M unit :=
  rc ← run_program cmd;
  if rc =? 0 then ret tt else raise (CalledProcessError cmd rc).

(** [subprocess.run(cmd).returncode]. *)
Definition subp_run (cmd : list string) : M Z := run_program cmd.

(** [Popen(["passwd", username, "--stdin"], ...)] fed with [passwd]. *)
Definition popen_passwd (username passwd : string) : M unit :=
  modify (emit (EvPasswd username passwd)).

(** A path argument of [os] and [shutil]: a string (Python's reading of an
    integer as a file descriptor is left out). *)
Definition as_path (v : yaml) : M string :=
  match v with
  | YStr s => ret s
  | _ => raise TypeError
  end.

(** [item[key]] on a loaded value. *)
Definition subscript (item : yaml) (key : string) : M yaml :=
  match item with
  | YDict d => match d !! key with
               | Some v => ret v
               | None => raise (KeyError key)
               end
  | _ => raise TypeError
  end.

(** ** The journal: [read_config], [add_restore], [cleanup_] *)

Definition is_FileNotFoundError (e : exn) : bool :=
  match e with FileNotFoundError _ => true | _ => false end.
Definition is_KeyError (e : exn) : bool :=
  match e with KeyError _ => true | _ => false end.
Definition is_CalledProcessError (e : exn) : bool :=
  match e with CalledProcessError _ _ => true | _ => false end.

(** The [try] block of [read_config]: the document behind [CONF]. *)
Definition load_config : M yaml :=
  try_except
    (conf ← read_env "CONF";
     config_data ← yaml_load conf;
     if truthy config_data then ret config_data else raise AssertionError)
    is_FileNotFoundError
    (λ e, logger ERROR ".env file is not present. Try to rerun commandwith --conf </path/to/conf.yaml> parameter" [] ;;
          raise e).

(** The inner loop of [read_config], [for part in parts]; [None] is the
    function's early [return None]. *)
Fixpoint read_parts (last : string) (parts : list string) (value : yaml)
    (return_list : list yaml) : M (option (list yaml)) :=
  match parts with
  | [] => ret (Some return_list)
  | part :: rest =>
      match value with
      | YNull =>
          logger WARNING "Key {} not present in the configuration file. Skip." [YStr part] ;;
          ret None
      | YDict d =>
          let value' := default YNull (d !! part) in
          read_parts last rest value'
            (if String.eqb part last then return_list ++ [value'] else return_list)
      | _ => raise AttributeError
      end
  end.

(** The outer loop, [for item in items]. *)
Fixpoint read_items (config_data : yaml) (items : list string)
    (return_list : list yaml) : M (option (list yaml)) :=
  match items with
  | [] => ret (Some return_list)
  | item :: rest =>
      let parts := split_on "." item in
      r ← read_parts (List.last parts "") parts config_data return_list;
      match r with
      | None => ret None
      | Some return_list' => read_items config_data rest return_list'
      end
  end.

(** [read_config] with its star-argument [items]; it is a tuple, so the [items is None]
    branch of the source is never taken. *)
Definition read_config (items : list string) : M yaml :=
  config_data ← load_config;
  r ← read_items config_data items [];
  match r with
  | None => ret YNull
  | Some return_list =>
      if (1 <? List.length items)%nat then ret (YList return_list)
      else match return_list with
           | v :: _ => ret v
           | [] => raise IndexError
           end
  end.

(** The dict [add_restore] appends. *)
Definition restore_record (type_ src : string) (backup : option string) : yaml :=
  YDict (<["type" := YStr type_]>
         (<["src" := YStr src]>
          (<["backup_dir" := from_option YStr YNull backup]> ∅))).

Definition known_type (type_ : string) : bool :=
  bool_decide (type_ ∈ ["user"; "file"; "dir"]).

(** A place that can hold the list under "restore" a second time: a place
    below another key of the document (the root is the dict, and what lies
    in the list is not the list). *)
Definition outside_restore (p : place) : bool :=
  match p with
  | AtKey k :: _ => negb (String.eqb k "restore")
  | _ => false
  end.

(** [data["restore"].append(record)] as it shows in [data]: the list [l]
    under "restore" is changed in place, so every place that is that same
    object shows the longer list too. *)
Definition append_in_place (d : gmap string yaml) (l : list yaml) (aliases : list place)
    (record : yaml) : yaml :=
  let restore := YList (l ++ [record]) in
  foldr (λ p data, set_place p restore data) (YDict (<["restore" := restore]> d))
        (filter (λ p, outside_restore p = true) aliases).

(** [add_restore(type_, src, backup=None)].  The last step is not in the
    source: it marks in the trace that the call went through. *)
Definition add_restore (type_ src : string) (backup : option string) : M unit :=
  conf ← read_env "CONF";
  loaded ← yaml_load_shared conf;
  let data := loaded.1 in
  let aliases := loaded.2 in
  (if known_type type_ then ret tt
   else logger WARNING "Type {} is not know, so this item can't be correctly restored"
          [YStr type_]) ;;
  restore ← subscript data "restore";
  match data, restore with
  | YDict d, YList l =>
      let record := restore_record type_ src backup in
      conf' ← read_env "CONF";
      dump_to conf' (append_in_place d l aliases record) aliases ;;
      modify (emit (EvAppend record))
  | _, _ => raise AttributeError
  end.

(** The body of the loop of [cleanup_]. *)
Definition cleanup_item (item : yaml) : M unit :=
  type_ ← subscript item "type";
  src ← (if negb (is_str "user" type_) then subscript item "src"
         else subscript item "username");
  let backup_dir :=
    match item with
    | YDict d => default YNull (d !! "backup_dir")
    | _ => YNull
    end in
  if is_str "file" type_ then
    if truthy backup_dir then
      b ← as_path backup_dir;
      s ← as_path src;
      copyfile b s ;;
      logger DEBUG "File {} is restored form {}" [src; backup_dir]
    else
      s ← as_path src;
      remove s ;;
      logger DEBUG "File {} is deleted" [src]
  else if is_str "dir" type_ then
    match src with
    | YStr s => rmtree_ignore_errors s
    | _ => ret tt
    end ;;
    logger DEBUG "Directory {} is deleted" [src] ;;
    if truthy backup_dir then
      b ← as_path backup_dir;
      s ← as_path src;
      copytree b s ;;
      logger DEBUG "Directory {} is restored form {}" [src; backup_dir]
    else ret tt
  else if is_str "user" type_ then
    username ← subscript item "username";
    u ← as_path username;
    check_output ["userdel"; u; "-r"] ;;
    logger DEBUG "User {} is delete with it home directory" [username]
  else
    logger WARNING "Skip item with unknow type '{}'" [type_].

(** [cleanup_(restore_items)]. *)
Definition cleanup_ (restore_items : list yaml) : M unit :=
  for_each restore_items cleanup_item.

(** ** Resource backup *)

(** The first free path among [base], [base~], [base~~], ... *)
Fixpoint fresh_path (m : gmap string node) (base : string) (fuel : nat) : option string :=
  match m !! base, fuel with
  | None, _ => Some base
  | Some _, O => None
  | Some _, S n => fresh_path m (base +:+ "~") n
  end.

Arguments fresh_path : simpl never.

(** Modelled from the spec: [utils.backup_] of [SCAutolib/src/utils.py],
    which is not among the sources.  Section 4.1: if the target exists it
    is copied (a directory with its whole tree) to a fresh path under the
    backup root, derived from the given name, and that path is returned; if
    it does not exist nothing is returned; the target is never changed; a
    failure surfaces as [BackupFailed]. *)
Definition backup_ (target name : string) : M (option string) :=
  h ← get;
  match fs h !! target with
  | None => ret None
  | Some n =>
      try_except
        (root ← read_env "BACKUP";
         match fresh_path (fs h) (join root name) (S (size (fs h))) with
         | None => raise (BackupFailed target)
         | Some dst =>
             match n with
             | File _ => copyfile target dst
             | Dir => copytree target dst
             end ;;
             ret (Some dst)
         end)
        (λ _, true)
        (λ _, raise (BackupFailed target))
  end.

(** ** Provisioning steps *)

Definition sssd_conf : string := "/etc/sssd/sssd.conf".

(** The dict [default] of [create_sssd_config], as [read_dict] takes it. *)
Definition sssd_default : ini :=
  [("sssd", [("#<[sssd]>", None); ("debug_level", Some "9");
             ("services", Some "nss, pam"); ("domains", Some "shadowutils")]);
   ("nss", [("#<[nss]>", None); ("debug_level", Some "9")]);
   ("pam", [("#<[pam]>", None); ("debug_level", Some "9");
            ("pam_cert_auth", Some "True")]);
   ("domain/shadowutils", [("#<[domain/shadowutils]>", None);
                           ("debug_level", Some "9"); ("id_provider", Some "files")])].

(** [create_sssd_config()]. *)
Definition create_sssd_config : M unit :=
  present ← exists_ sssd_conf;
  (if (present : bool) then
     bakcup_dir ← backup_ sssd_conf "sssd-original.conf";
     add_restore "file" sssd_conf bakcup_dir
   else ret tt) ;;
  open_w sssd_conf (Ini sssd_default) ;;
  logger DEBUG "Configuration file for SSSD is updated in  /etc/sssd/sssd.conf" [] ;;
  chmod sssd_conf 384.

(** [create_softhsm2_config(card_dir)]. *)
Definition create_softhsm2_config (card_dir : string) : M unit :=
  let conf_dir := card_dir +:+ "/conf" in
  open_w (conf_dir +:+ "/softhsm2.conf") (Template "softhsm2.conf" [YStr card_dir]) ;;
  logger DEBUG "Configuration file for SoftHSM2 is created in {}/softhsm2.conf." [YStr conf_dir].

Definition virt_card_service_path (username : string) : string :=
  "/etc/systemd/system/virt_cacard_" +:+ username +:+ ".service".

(** The double quote of the f-string for [Environment]. *)
Definition dquote : string := String (ascii_of_nat 34) EmptyString.

(** The dict [default] of [create_virt_card_service]. *)
Definition virt_card_default (username card_dir : string) : ini :=
  let conf_dir := card_dir +:+ "/conf" in
  [("Unit", [("Description", Some ("virtual card for " +:+ username));
             ("Requires", Some "pcscd.service")]);
   ("Service", [("Environment", Some ("SOFTHSM2_CONF=" +:+ dquote +:+ conf_dir +:+ "/softhsm2.conf"
                                          +:+ dquote));
                ("WorkingDirectory", Some card_dir);
                ("ExecStart", Some "/usr/bin/virt_cacard >> /var/log/virt_cacard.debug 2>&1");
                ("KillMode", Some "process")]);
   ("Install", [("WantedBy", Some "multi-user.target")])].

(** [value.replace('%%', '')] of [BasicInterpolation.before_set]. *)
Fixpoint drop_escaped_percents (s : string) : string :=
  match s with
  | String "%" (String "%" rest) => drop_escaped_percents rest
  | String a rest => String a (drop_escaped_percents rest)
  | EmptyString => EmptyString
  end.

(** Where the scan of [unmatched_percent] stands: outside a reference,
    after [%], inside the name of [%(name)s] (with one character of it
    read or none), after its closing parenthesis. *)
Inductive scan_state : Type :=
  | Outside
  | AfterPercent
  | InName (nonempty : bool)
  | AfterName.

(** Whether a [%] is left once every [%(name)s] (the regular expression
    [%\(([^)]+)\)s]) is taken out. *)
Fixpoint unmatched_percent (st : scan_state) (s : string) : bool :=
  match s with
  | EmptyString => match st with Outside => false | _ => true end
  | String a rest =>
      match st with
      | Outside =>
          if Ascii.eqb a "%" then unmatched_percent AfterPercent rest
          else unmatched_percent Outside rest
      | AfterPercent =>
          if Ascii.eqb a "(" then unmatched_percent (InName false) rest else true
      | InName nonempty =>
          if Ascii.eqb a ")" then
            if nonempty then unmatched_percent AfterName rest else true
          else unmatched_percent (InName true) rest
      | AfterName =>
          if Ascii.eqb a "s" then unmatched_percent Outside rest else true
      end
  end.

(** [BasicInterpolation.before_set] raises [ValueError] on such a value;
    [RawConfigParser.set] asks it for every value that is not empty. *)
Definition invalid_interpolation (value : string) : bool :=
  unmatched_percent Outside (drop_escaped_percents value).

Definition invalid_values (d : ini) : bool :=
  existsb (λ section,
             existsb (λ o, match o.2 with
                           | Some v => invalid_interpolation v
                           | None => false
                           end) section.2) d.

Arguments invalid_interpolation : simpl never.
Arguments invalid_values : simpl never.

(** What the block [with open(path, "w") as f: cnf.read_dict(d);
    cnf.write(f)] leaves in the file: [open] has emptied it when
    [read_dict] raises. *)
Definition dict_content (d : ini) : content :=
  if invalid_values d then Text "" else Ini d.

(** The block itself, for a parser that holds nothing yet. *)
Definition write_dict (path : string) (d : ini) : M unit :=
  open_w path (dict_content d) ;;
  if invalid_values d then raise ValueError else ret tt.

(** [create_virt_card_service(username, card_dir)]. *)
Definition create_virt_card_service (username card_dir : string) : M unit :=
  let path := virt_card_service_path username in
  present ← exists_ path;
  (if (present : bool) then
     match split_first "." (basename path) with
     | name0 :: name1 :: _ =>
         backup_dir ← backup_ path (name0 +:+ "-original." +:+ name1);
         add_restore "file" path backup_dir
     | _ => raise IndexError
     end
   else ret tt) ;;
  write_dict path (virt_card_default username card_dir) ;;
  logger DEBUG "Service file {} for user '{}' is created." [YStr path; YStr username].

(** [create_cnf(user, conf_dir=None, ca_dir=None)]. *)
Definition create_cnf (user : string) (conf_dir ca_dir : option string) : M unit :=
  if String.eqb user "ca" then
    ca_dir ← match ca_dir with
             | Some d => ret (YStr d)
             | None =>
                 logger WARNING "Parameter ca_dir is None. Try to read from config file" [] ;;
                 d ← read_config ["ca_dir"];
                 match d with
                 | YNull =>
                     logger ERROR "No value for ca_dir in config file" [] ;;
                     raise (UnspecifiedParameter "ca_dir")
                 | _ => ret d
                 end
             end;
    conf_dir ← match conf_dir with
               | Some c => ret c
               | None => d ← as_path ca_dir; ret (join d "conf")
               end;
    open_w (conf_dir +:+ "/ca.cnf") (Template "ca.cnf" [ca_dir]) ;;
    logger DEBUG "Configuration file for local CA is created {}/ca.cnf" [YStr conf_dir]
  else
    match conf_dir with
    | None => raise (UnspecifiedParameter "conf_dir")
    | Some c =>
        open_w (c +:+ "/req_" +:+ user +:+ ".cnf") (Template "req.cnf" [YStr user]) ;;
        logger DEBUG "Configuration file for CSR for user {} is created {}/req_{}.cnf"
          [YStr user; YStr c; YStr user]
    end.

(** [prepare_dir(dir_path, conf=True)]. *)
Definition prepare_dir (dir_path : string) (conf : bool) : M unit :=
  mkdir_p dir_path ;;
  logger DEBUG "Directory {} is created" [YStr dir_path] ;;
  if conf then
    mkdir_p (join dir_path "conf") ;;
    logger DEBUG "Directory {} is created" [YStr (join dir_path "conf")]
  else ret tt.

(** [prep_tmp_dirs()]. *)
Definition prep_tmp_dirs : M unit :=
  ca ← read_env "CA_DIR";
  tmp ← read_env "TMP";
  bak ← read_env "BACKUP";
  ca' ← read_env "CA_DIR";
  for_each [ca; tmp; bak; join ca' "conf"] (λ path, prepare_dir path false).

(** [ConfigParser.set(section, option, value)] on the parsed sections. *)
Fixpoint set_option (opts : list (string * option string)) (option_ value : string)
    : list (string * option string) :=
  match opts with
  | [] => [(option_, Some value)]
  | (o, v) :: rest =>
      if String.eqb o option_ then (o, Some value) :: rest
      else (o, v) :: set_option rest option_ value
  end.

Fixpoint ini_set (c : ini) (section option_ value : string) : ini :=
  match c with
  | [] => []
  | (s, opts) :: rest =>
      if String.eqb s section then (s, set_option opts option_ value) :: rest
      else (s, opts) :: ini_set rest section option_ value
  end.

Definition ini_sections (c : ini) : list string := map fst c.

(** A line that [ConfigParser.read_file] takes for a comment. *)
Definition is_comment (line : string) : bool :=
  String.prefix "#" line || String.prefix ";" line.

(** [ConfigParser().read_file(f)] on what [ConfigParser.write] wrote: an
    option without a value is a line of its own, which is skipped when it
    reads as a comment and is a parsing error otherwise.  The white space
    that writing and reading strip from a value is not modelled. *)
Fixpoint read_options (opts : list (string * option string))
    : option (list (string * option string)) :=
  match opts with
  | [] => Some []
  | (o, v) :: rest =>
      match v with
      | None => if is_comment o then read_options rest else None
      | Some _ => if is_comment o then read_options rest
                  else option_map (cons (o, v)) (read_options rest)
      end
  end.

Fixpoint read_sections (c : ini) : option ini :=
  match c with
  | [] => Some []
  | (s, opts) :: rest =>
      match read_options opts, read_sections rest with
      | Some opts', Some rest' => Some ((s, opts') :: rest')
      | _, _ => None
      end
  end.

Definition read_file (p : string) : M ini :=
  c ← open_r p;
  match c with
  | Ini i => match read_sections i with
             | Some i' => ret i'
             | None => raise (ParsingError p)
             end
  | _ => raise (ParsingError p)
  end.

(** [cnf.set(section, option, value)] with the check it makes first. *)
Definition cnf_set (cnf : ini) (section option_ value : string) : M ini :=
  if negb (String.eqb value "") && invalid_interpolation value then raise ValueError
  else ret (ini_set cnf section option_ value).

(** The dict [user] of [setup_virt_card_] and [create_sc]; a key that is
    absent or [None] is [None] here. *)
Record sc_user : Type := ScUser {
  name : string;
  card_dir : string;
  passwd : string;
  local : bool;
  cert : option string;
  key : option string
}.

(** [user[k]] when it is truthy. *)
Definition nonempty (v : option string) : option string :=
  match v with
  | Some s => if String.eqb s "" then None else Some s
  | None => None
  end.

Section Scripts.

(** The script paths that [SCAutolib/src/__init__.py] defines. *)
Variables (SETUP_CA SETUP_VSC CLEANUP_CA : string).

(** [setup_ca_(env_file)]. *)
Definition setup_ca_ (env_file : string) : M unit :=
  ca_dir ← read_env "CA_DIR";
  logger DEBUG "Start setup of local CA" [] ;;
  try_except
    (check_output ["bash"; SETUP_CA; "--dir"; ca_dir; "--env"; env_file] ;;
     logger DEBUG "Setup of local CA is completed" [])
    is_CalledProcessError
    (λ _, logger ERROR "Error while setting up local CA" [] ;; raise (SystemExit 1)).

(** [setup_virt_card_(user)]. *)
Definition setup_virt_card_ (user : sc_user) : M unit :=
  let username := name user in
  let cmd := ["bash"; SETUP_VSC; "--dir"; card_dir user; "--username"; username] in
  (if local user then
     try_finally
       (try_except
          (getpwnam username ;; ret tt)
          is_KeyError
          (λ _, check_output ["useradd"; username; "-m"] ;;
                logger DEBUG "Local user {} is added to the system with a password {}"
                  [YStr username; YStr (passwd user)]))
       (popen_passwd username (passwd user) ;;
        logger DEBUG "Password for user {} is updated to {}"
          [YStr username; YStr (passwd user)]) ;;
     create_cnf username (Some (join (card_dir user) "conf")) None ;;
     cnf ← read_file sssd_conf;
     let section := "certmap/shadowutils/" +:+ username in
     let cnf := if bool_decide (section ∈ ini_sections cnf) then cnf
                else cnf ++ [(section, [])] in
     cnf ← cnf_set cnf section "matchrule" ("<SUBJECT>.*CN=" +:+ username +:+ ".*");
     open_w sssd_conf (Ini cnf) ;;
     logger DEBUG "Match rule for local user is added to /etc/sssd/sssd.conf" []
   else ret tt) ;;
  cmd ← match nonempty (cert user) with
        | Some c =>
            match nonempty (key user) with
            | Some k => ret (cmd ++ ["--cert"; c] ++ ["--key"; k])
            | None =>
                ca_dir ← read_env "CA_DIR";
                logger DEBUG "Key or certificate for user {} is not present. New pair of key and cert will be generated by local CA from {}"
                  [YStr username; YStr ca_dir] ;;
                ret (cmd ++ ["--cert"; c] ++ ["--ca"; ca_dir])
            end
        | None =>
            ca_dir ← read_env "CA_DIR";
            logger DEBUG "Key or certificate for user {} is not present. New pair of key and cert will be generated by local CA from {}"
              [YStr username; YStr ca_dir] ;;
            ret (cmd ++ ["--ca"; ca_dir])
        end;
  logger DEBUG "Start setup of virtual smart card for user {} in {}"
    [YStr username; YStr (card_dir user)] ;;
  try_except
    (check_output cmd ;;
     logger DEBUG "Setup of virtual smart card for user {} is completed" [YStr username])
    is_CalledProcessError
    (λ e, logger ERROR "Error while setting up virtual smart card" [] ;; raise e).

(** [create_sc(sc_user)]. *)
Definition create_sc (user : sc_user) : M unit :=
  prepare_dir (card_dir user) true ;;
  create_softhsm2_config (card_dir user) ;;
  logger DEBUG "SoftHSM2 configuration file is created in the {}/conf/softhsm2.conf"
    [YStr (card_dir user)] ;;
  create_virt_card_service (name user) (card_dir user) ;;
  logger DEBUG "Start setup of virtual smart cards for local user {}" [YStr (name user)] ;;
  setup_virt_card_ user.

(** The function [cleanup_ca()] of [env-cli.py], which takes no parameter:
    what a call [cleanup_ca()] does.  The command that click makes of it is
    [cleanup_ca_command] below. *)
Definition cleanup_ca : M unit :=
  logger DEBUG "Start cleanup of local CA" [] ;;
  username ← read_config ["local_user.name"];
  u ← as_path username;
  out ← subp_run ["bash"; CLEANUP_CA; "--username"; u];
  if out =? 0 then logger DEBUG "Cleanup of local CA is completed" []
  else raise AssertionError.

(** The provisioning steps of [env.py] that act on files and accounts. *)
Inductive step : Type :=
  | CreateCnf (user : string) (conf_dir ca_dir : option string)
  | CreateSssdConfig
  | CreateSofthsm2Config (card_dir : string)
  | CreateVirtCardService (username card_dir : string)
  | SetupCa (env_file : string)
  | SetupVirtCard (user : sc_user)
  | PrepareDir (dir_path : string) (conf : bool)
  | PrepTmpDirs
  | CreateSc (user : sc_user).

Definition run_step (s : step) : M unit :=
  match s with
  | CreateCnf user conf_dir ca_dir => create_cnf user conf_dir ca_dir
  | CreateSssdConfig => create_sssd_config
  | CreateSofthsm2Config card_dir => create_softhsm2_config card_dir
  | CreateVirtCardService username card_dir => create_virt_card_service username card_dir
  | SetupCa env_file => setup_ca_ env_file
  | SetupVirtCard user => setup_virt_card_ user
  | PrepareDir dir_path conf => prepare_dir dir_path conf
  | PrepTmpDirs => prep_tmp_dirs
  | CreateSc user => create_sc user
  end.

End Scripts.



(** ** The rest of [env.py]: checks and set-up helpers *)

(** The tuple [fields] of [check_config]. *)
Definition required_fields : list string :=
  ["root_passwd"; "ca_dir"; "ipa_server_root"; "ipa_server_ip"; "ipa_server_hostname";
   "ipa_client_hostname"; "ipa_domain"; "ipa_realm"; "ipa_server_admin_passwd";
   "local_user"; "ipa_user"].

(** The loop of [check_config], [for f in fields], with the variable
    [result] it updates. *)
Fixpoint check_fields (config_data : gmap string yaml) (fields : list string)
    (result : bool) : M bool :=
  match fields with
  | [] => ret result
  | f :: rest =>
      match config_data !! f with
      | Some _ => check_fields config_data rest result
      | None =>
          logger WARNING "Field {} is not present in the config." [YStr f] ;;
          check_fields config_data rest false
      end
  end.

(** [check_config(conf)]; [config_data.keys()] needs a dict. *)
Definition check_config (conf : string) : M bool :=
  config_data ← yaml_load conf;
  (if truthy config_data then ret tt else raise AssertionError) ;;
  match config_data with
  | YDict d =>
      result ← check_fields d required_fields true;
      (if (result : bool) then logger DEBUG "Configuration file is OK." [] else ret tt) ;;
      ret result
  | _ => raise AttributeError
  end.

(** [result.stdout] in [check_semodule]: [result] is what [check_output]
    returned with [encoding] set, a [str], and a [str] has no attribute
    [stdout]. *)
Definition str_stdout : M string := raise AttributeError.

(** [check_semodule()]. *)
Definition check_semodule : M unit :=
  check_output ["semodule"; "-l"] ;;
  stdout ← str_stdout;
  match String.index 0 "virtcacard" stdout with
  | Some _ => ret tt
  | None =>
      logger DEBUG "SELinux module for virtual smart cards is not present in the system. Installing..." [] ;;
      ca_dir ← read_env "CA_DIR";
      let conf_dir := join ca_dir "conf" in
      open_w (conf_dir +:+ "/virtcacard.cil") (Template "virtcacard.cil" []) ;;
      try_except
        (check_output ["semodule"; "-i"; conf_dir +:+ "/virtcacard.cil"] ;;
         logger DEBUG "SELinux module for virtual smart cards is installed" [])
        is_CalledProcessError
        (λ e, logger ERROR "Error while installing SELinux module for virt_cacard" [] ;;
              raise e) ;;
      try_except
        (check_output ["systemctl"; "restart"; "pcscd"] ;;
         logger DEBUG "pcscd service is restarted" [])
        is_CalledProcessError
        (λ e, logger ERROR "Error while resturting the pcscd service" [] ;; raise e)
  end.

Section Helpers.

(** The script paths of [SCAutolib/src/__init__.py], and Python's [int] on
    a string of the settings: a number, or the exception it raises. *)
Variables (GENERAL_SETUP INSTALL_IPA_CLIENT SETUP_IPA_SERVER : string).
Variable int_ : string → result Z.

(** [read_env(item, cast=int, default=d)]. *)
Definition read_env_int (item : string) (d : Z) : M Z :=
  λ h, match env h !! item with
       | Some v => (int_ v, h)
       | None => (Ok d, h)
       end.

(** [general_setup(install_missing=False)]. *)
Definition general_setup (install_missing : bool) : M unit :=
  let args := ["bash"; GENERAL_SETUP] ++
              (if install_missing then ["--install-missing"] else []) in
  ready ← read_env_int "READY" 0;
  if negb (ready =? 1) then
    check_semodule ;;
    try_except
      (check_output args)
      is_CalledProcessError
      (λ e, logger ERROR "Script for general setup is failed" [] ;; raise e)
  else ret tt.

(** [install_ipa_client_(ip, passwd)]. *)
Definition install_ipa_client_ (ip passwd_ : string) : M unit :=
  logger DEBUG "Start installation of IPA client" [] ;;
  let args := ["bash"; INSTALL_IPA_CLIENT; "--ip"; ip; "--root"; passwd_] in
  logger DEBUG "Aruments for script: {}" [YList (map YStr args)] ;;
  try_except
    (check_output args ;;
     logger DEBUG "IPA client is configured on the system. Don't forget to add IPA user by add-ipa-user command :)" [])
    is_CalledProcessError
    (λ e, logger ERROR "Error while installing IPA client on local host" [] ;; raise e).

(** [setup_ipa_server_()]. *)
Definition setup_ipa_server_ : M unit :=
  check_output ["bash"; SETUP_IPA_SERVER].

End Helpers.

(** * Verification *)

(** ** Vocabulary *)

(** The host after the warning of [add_restore], if there is one. *)
Definition warned (type_ : string) (h : host) : host :=
  if known_type type_ then h
  else add_log (Log WARNING "Type {} is not know, so this item can't be correctly restored"
                  [YStr type_]) h.

(** The host after a call of [add_restore] that went through, when the
    document behind [conf] was [d] with the restore list [l]. *)
Definition appended (conf : string) (d : gmap string yaml) (l : list yaml)
    (type_ src : string) (backup : option string) (h : host) : host :=
  let record := restore_record type_ src backup in
  let c := Yaml (YDict (<["restore" := YList (l ++ [record])]> d)) in
  emit (EvAppend record) (emit (EvWrite conf c) (set_fs (insert conf (File c)) (warned type_ h))).

(** Several calls of [add_restore], one after the other. *)
Definition add_restores (rs : list (string * string * option string)) : M unit :=
  for_each rs (λ r, add_restore r.1.1 r.1.2 r.2).

Definition records_of (rs : list (string * string * option string)) : list yaml :=
  map (λ r, restore_record r.1.1 r.1.2 r.2) rs.

(** The engine as the specification words it: every record is attempted,
    a failure is noted and the pass goes on to the next record. *)
Fixpoint cleanup_every_record (restore_items : list yaml) : M (list (option exn)) :=
  match restore_items with
  | [] => ret []
  | item :: rest =>
      outcome ← try_except (cleanup_item item ;; ret None) (λ _, true) (λ e, ret (Some e));
      outcomes ← cleanup_every_record rest;
      ret (outcome :: outcomes)
  end.

(** The command as the specification words it: the restore list of the
    configuration document is loaded and handed to the engine. *)
Definition cleanup_command_spec : M unit :=
  restore ← read_config ["restore"];
  match restore with
  | YList l => cleanup_ l
  | _ => raise TypeError
  end.

(** A process ends with status zero when its command returns. *)
Definition exits_zero {A} (out : result A * host) : bool :=
  match out.1 with
  | Ok _ => true
  | Raise _ => false
  end.

(** The two steps that journal the file they write. *)
Inductive journaling_step : Type :=
  | Sssd
  | VirtCard (username card_dir : string).

Definition target (s : journaling_step) : string :=
  match s with
  | Sssd => sssd_conf
  | VirtCard username _ => virt_card_service_path username
  end.

Definition new_content (s : journaling_step) : content :=
  match s with
  | Sssd => Ini sssd_default
  | VirtCard username card_dir => dict_content (virt_card_default username card_dir)
  end.

Definition run_journaling (s : journaling_step) : M unit :=
  match s with
  | Sssd => create_sssd_config
  | VirtCard username card_dir => create_virt_card_service username card_dir
  end.

(** What follows the overwrite in the step. *)
Definition after_write (s : journaling_step) : list event :=
  match s with
  | Sssd => [EvChmod sssd_conf 384]
  | VirtCard _ _ => []
  end.

(** Backup, append, overwrite: the events of a journaling step on a target
    that was there, in the order the claim gives. *)
Definition protocol (s : journaling_step) (b conf : string) (d : gmap string yaml)
    (l : list yaml) : list event :=
  let record := restore_record "file" (target s) (Some b) in
  [EvCopyfile (target s) b;
   EvWrite conf (Yaml (YDict (<["restore" := YList (l ++ [record])]> d)));
   EvAppend record;
   EvWrite (target s) (new_content s)] ++ after_write s.

(** Every overwrite of [p] has the append of [p]'s record before it, and
    the backup copy of [p] before that. *)
Definition follows_protocol (p : string) (evs : list event) : Prop :=
  ∀ i c, evs !! i = Some (EvWrite p c) →
    ∃ k j b, (k < j < i)%nat ∧ evs !! k = Some (EvCopyfile p b) ∧
             evs !! j = Some (EvAppend (restore_record "file" p (Some b))).

(** The events a computation added to the trace of [h]. *)
Definition new_events (h h' : host) : list event :=
  drop (List.length (trace h)) (trace h').

(** A record that [add_restore] wrote for a file. *)
Definition file_record (r : yaml) : Prop :=
  ∃ src backup, r = restore_record "file" src backup.

Definition not_append (e : event) : Prop :=
  match e with
  | EvAppend _ => False
  | _ => True
  end.

Definition appends_file (e : event) : Prop :=
  match e with
  | EvAppend r => file_record r
  | _ => True
  end.

(** The trace grows by events that satisfy [P]. *)
Definition grows (P : event → Prop) (h h' : host) : Prop :=
  ∃ evs, trace h' = trace h ++ evs ∧ Forall P evs.

(** Nothing but the log changes. *)
Definition only_logs (h h' : host) : Prop :=
  env h' = env h ∧ fs h' = fs h ∧ users h' = users h ∧
  programs h' = programs h ∧ trace h' = trace h.

Definition same_users (h h' : host) : Prop := users h' = users h.

Definition same_at (p : string) (h h' : host) : Prop := fs h' !! p = fs h !! p.



(** ** Hosts to run the code on *)

Module Scenario.

(** The programs of a host in working order.  [userdel name -r] removes
    the account and its home tree, and exits with 6 when there is no such
    account; [useradd name -m] makes the account with a home directory,
    and exits with 9 when the name is taken; every other program, the
    repository's scripts among them, exits with 0 and changes nothing. *)
Definition system : list string → gmap string node → gmap string string →
    Z * gmap string node * gmap string string :=
  λ cmd files accounts,
    match cmd with
    | [prog; a; b] =>
        if String.eqb prog "userdel" && String.eqb b "-r" then
          match accounts !! a with
          | Some home => (0, rmtree_fs home files, delete a accounts)
          | None => (6, files, accounts)
          end
        else if String.eqb prog "useradd" && String.eqb b "-m" then
          match accounts !! a with
          | Some _ => (9, files, accounts)
          | None =>
              let home := "/home/" +:+ a in
              (0, match files !! home with
                  | None => <[home := Dir]> files
                  | Some _ => files
                  end, <[a := home]> accounts)
          end
        else (0, files, accounts)
    | _ => (0, files, accounts)
    end.

(** Every script fails with status 1 and changes nothing. *)
Definition failing : list string → gmap string node → gmap string string →
    Z * gmap string node * gmap string string :=
  λ _ files accounts, (1, files, accounts).

Definition conf_path : string := "/root/conf.yaml".

Definition document : gmap string yaml :=
  <["restore" := YList []]>
    (<["local_user" := YDict (<["name" := YStr "alice"]> ∅)]>
       (<["ca_dir" := YStr "/var/ca"]> ∅)).

Definition settings : gmap string string :=
  <["CONF" := conf_path]> (<["BACKUP" := "/var/backup"]> (<["CA_DIR" := "/var/ca"]> ∅)).

Definition accounts : gmap string string := <["alice" := "/home/alice"]> ∅.

(** A host with the account alice and no [sssd.conf]. *)
Definition fresh : host :=
  Host settings
    (<[conf_path := File (Yaml (YDict document))]>
       (<["/home/alice" := Dir]>
          (<["/home/alice/.profile" := File (Text "PATH=/bin")]>
             (<["/tmp/stale" := File (Text "stale")]> ∅))))
    accounts system [] [].

(** The same host with an [sssd.conf] and a service file in place. *)
Definition configured : host :=
  set_fs (λ m, <[sssd_conf := File (Ini [("sssd", [("services", Some "nss")])])]>
                 (<[virt_card_service_path "bob" := File (Text "[Unit]")]> m))
         fresh.

(** The configuration document without its restore list. *)
Definition listless : host :=
  set_fs (insert conf_path (File (Yaml (YDict (delete "restore" document))))) fresh.

(** The host whose scripts fail. *)
Definition broken : host :=
  Host (env fresh) (fs fresh) (users fresh) failing [] [].

(** The host without the file that [CONF] names. *)
Definition unconfigured : host := set_fs (delete conf_path) fresh.

(** The host whose configuration file is an empty document. *)
Definition blank : host := set_fs (insert conf_path (File (Yaml YNull))) fresh.

(** A configuration document in which the field [pending] is an alias of
    the restore list:
<<
    pending: &id001 []
    restore: *id001
>>
    with the other fields of [document]. *)
Definition shared : host :=
  set_fs (insert conf_path
            (File (YamlShared (YDict (<["pending" := YList []]> document))
                              [[AtKey "pending"]])))
         fresh.

Definition bob : sc_user := ScUser "bob" "/opt/bob" "secret" true None None.

(** The record of bob's service file, and the events of [create_sc] for
    bob on the configured host. *)
Definition bob_record : yaml :=
  restore_record "file" (virt_card_service_path "bob")
    (Some "/var/backup/virt_cacard_bob-original.service").

Definition bob_events : list event :=
  [EvMkdir "/opt/bob";
   EvMkdir "/opt/bob/conf";
   EvWrite "/opt/bob/conf/softhsm2.conf" (Template "softhsm2.conf" [YStr "/opt/bob"]);
   EvCopyfile (virt_card_service_path "bob") "/var/backup/virt_cacard_bob-original.service";
   EvWrite conf_path (Yaml (YDict (<["restore" := YList ([] ++ [bob_record])]> document)));
   EvAppend bob_record;
   EvWrite (virt_card_service_path "bob") (Ini (virt_card_default "bob" "/opt/bob"));
   EvExec ["useradd"; "bob"; "-m"] 0;
   EvPasswd "bob" "secret";
   EvWrite "/opt/bob/conf/req_bob.cnf" (Template "req.cnf" [YStr "bob"]);
   EvWrite sssd_conf
     (Ini [("sssd", [("services", Some "nss")]);
           ("certmap/shadowutils/bob", [("matchrule", Some "<SUBJECT>.*CN=bob.*")])]);
   EvExec ["bash"; "/usr/share/setup_virt_card.sh"; "--dir"; "/opt/bob";
           "--username"; "bob"; "--ca"; "/var/ca"] 0].

End Scenario.

(** ** The monad *)

Lemma bind_ok {A B} (m : M A) (k : A → M B) h a h1 :
  m h = (Ok a, h1) → (m ≫= k) h = k a h1.
Proof. intros E. unfold mbind, M_bind, bind. by rewrite E. Qed.

Lemma bind_raise {A B} (m : M A) (k : A → M B) h e h1 :
  m h = (Raise e, h1) → (m ≫= k) h = (Raise e, h1).
Proof. intros E. unfold mbind, M_bind, bind. by rewrite E. Qed.

Ltac run := unfold mbind, M_bind, bind, ret, raise, modify, logger, get; simpl.

(** Goes through a list of events by index, for a hypothesis [H] on what
    is found at the index [i]. *)
Ltac scan i H :=
  first [ discriminate H
        | destruct i as [|i]; [ try discriminate H | scan i H ] ].

(** A conjunction of facts about a run on a given host: run it. *)
Ltac by_running :=
  cbv zeta;
  repeat match goal with |- _ ∧ _ => split end;
  vm_compute; reflexivity.

(** ** The journal store *)

Lemma warned_fields type_ h :
  env (warned type_ h) = env h ∧ fs (warned type_ h) = fs h ∧
  users (warned type_ h) = users h ∧ trace (warned type_ h) = trace h ∧
  programs (warned type_ h) = programs h.
Proof. unfold warned. by destruct (known_type type_). Qed.

Lemma add_restore_ok h conf d l type_ src backup :
  env h !! "CONF" = Some conf →
  fs h !! conf = Some (File (Yaml (YDict d))) →
  d !! "restore" = Some (YList l) →
  add_restore type_ src backup h = (Ok tt, appended conf d l type_ src backup h).
Proof.
  intros He Hf Hr.
  unfold add_restore, appended, warned, read_env, yaml_load_shared, dump_to, yaml_dump, append_in_place, open_r, subscript, open_w.
  run. rewrite He. simpl. rewrite Hf. simpl.
  destruct (known_type type_); simpl; rewrite Hr; simpl; rewrite He; simpl;
    rewrite Hf; reflexivity.
Qed.

Lemma restore_record_lookup type_ src backup :
  ∃ d, restore_record type_ src backup = YDict d ∧
       d !! "type" = Some (YStr type_) ∧ d !! "src" = Some (YStr src) ∧
       d !! "backup_dir" = Some (from_option YStr YNull backup) ∧
       d !! "username" = None.
Proof. eexists. split; [reflexivity|]. repeat split; reflexivity. Qed.

Lemma read_config_restore h conf d v :
  env h !! "CONF" = Some conf →
  fs h !! conf = Some (File (Yaml (YDict d))) →
  d !! "restore" = Some v →
  read_config ["restore"] h = (Ok v, h).
Proof.
  intros He Hf Hr.
  assert (Hne : bool_decide (d = ∅) = false).
  { apply bool_decide_eq_false. intros ->. by rewrite lookup_empty in Hr. }
  unfold read_config, load_config, try_except, read_env, yaml_load, open_r. run.
  rewrite He. simpl. rewrite Hf. simpl. rewrite Hne. simpl.
  rewrite Hr. reflexivity.
Qed.

Lemma add_restores_ok rs : ∀ h conf d l,
  env h !! "CONF" = Some conf →
  fs h !! conf = Some (File (Yaml (YDict d))) →
  d !! "restore" = Some (YList l) →
  ∃ h', add_restores rs h = (Ok tt, h') ∧ env h' = env h ∧ users h' = users h ∧
        fs h' = <[conf := File (Yaml (YDict (<["restore" := YList (l ++ records_of rs)]> d)))]>
                  (fs h).
Proof.
  induction rs as [|[[t s] b] rs IH]; intros h conf d l He Hf Hr.
  - exists h. repeat split; try reflexivity.
    simpl. rewrite app_nil_r. rewrite (insert_id d), insert_id; done.
  - destruct (warned_fields t h) as (We & Wf & Wu & _).
    set (d1 := <["restore" := YList (l ++ [restore_record t s b])]> d).
    set (h1 := appended conf d l t s b h).
    destruct (IH h1 conf d1 (l ++ [restore_record t s b])) as (h' & Hrun & He' & Hu' & Hf').
    + unfold h1, appended. simpl. by rewrite We.
    + unfold h1, appended. simpl. by rewrite lookup_insert_eq.
    + unfold d1. by rewrite lookup_insert_eq.
    + exists h'. split; [|split; [|split]].
      * unfold add_restores. simpl. erewrite bind_ok; [exact Hrun|].
        by apply add_restore_ok.
      * rewrite He'. unfold h1, appended. simpl. exact We.
      * rewrite Hu'. unfold h1, appended. simpl. exact Wu.
      * rewrite Hf'. unfold h1, appended, d1. simpl. rewrite Wf.
        rewrite !insert_insert_eq. by rewrite <- app_assoc.
Qed.

(** C7, as the code has it.  When the configuration document holds a
    restore list [l] that no other node of the document shares, any number
    of appends goes through; the document then is the old one with only
    its restore list replaced, by [l] followed by one new record for each
    call, in the order of the calls; a record is a dict with exactly the
    keys [type], [src] and [backup_dir], which hold the kind, the target
    and the backup location of the call ([None] when there is none); every
    other field is as it was, the rest of the file system is untouched,
    and loading the restore list gives exactly that list.  One append is
    the case of a one-element [rs]. *)
Theorem add_restore_appends_in_order_and_keeps_other_fields
    (h : host) (conf : string) (d : gmap string yaml) (l : list yaml)
    (rs : list (string * string * option string)) :
  env h !! "CONF" = Some conf →
  fs h !! conf = Some (File (Yaml (YDict d))) →
  d !! "restore" = Some (YList l) →
  ∃ h' d' new,
    add_restores rs h = (Ok tt, h') ∧
    fs h' = <[conf := File (Yaml (YDict d'))]> (fs h) ∧
    d' !! "restore" = Some (YList (l ++ new)) ∧
    Forall2 (λ r record,
               ∃ fields, record = YDict fields ∧
                 fields !! "type" = Some (YStr r.1.1) ∧
                 fields !! "src" = Some (YStr r.1.2) ∧
                 fields !! "backup_dir" = Some (from_option YStr YNull r.2) ∧
                 ∀ k, k ∉ ["type"; "src"; "backup_dir"] → fields !! k = None)
            rs new ∧
    (∀ k, k ≠ "restore" → d' !! k = d !! k) ∧
    read_config ["restore"] h' = (Ok (YList (l ++ new)), h').
Proof.
  intros He Hf Hr.
  destruct (add_restores_ok rs h conf d l He Hf Hr) as (h' & Hrun & He' & _ & Hf').
  exists h', (<["restore" := YList (l ++ records_of rs)]> d), (records_of rs).
  split; [exact Hrun|]. split; [exact Hf'|].
  split; [apply lookup_insert_eq|].
  split.
  { clear. induction rs as [|[[t s] b] rs IH]; constructor; [|exact IH].
    eexists. split; [reflexivity|]. simpl.
    split; [reflexivity|]. split; [reflexivity|]. split; [reflexivity|].
    intros k Hk. apply not_elem_of_cons in Hk as [H1 Hk].
    apply not_elem_of_cons in Hk as [H2 Hk]. apply not_elem_of_cons in Hk as [H3 _].
    by rewrite !lookup_insert_ne. }
  split; [intros k Hk; by apply lookup_insert_ne|].
  eapply read_config_restore.
  - by rewrite He'.
  - rewrite Hf'. apply lookup_insert_eq.
  - apply lookup_insert_eq.
Qed.

Lemma add_restore_appends_in_order_witness :
  ∃ h' d' new,
    add_restores [("file", "/etc/sssd/sssd.conf", Some "/var/backup/sssd-original.conf");
                  ("dir", "/opt/card/tokens", None)] Scenario.fresh = (Ok tt, h') ∧
    fs h' = <[Scenario.conf_path := File (Yaml (YDict d'))]> (fs Scenario.fresh) ∧
    d' !! "restore" = Some (YList ([] ++ new)) ∧
    Forall2 (λ r record,
               ∃ fields, record = YDict fields ∧
                 fields !! "type" = Some (YStr r.1.1) ∧
                 fields !! "src" = Some (YStr r.1.2) ∧
                 fields !! "backup_dir" = Some (from_option YStr YNull r.2) ∧
                 ∀ k, k ∉ ["type"; "src"; "backup_dir"] → fields !! k = None)
            [("file", "/etc/sssd/sssd.conf", Some "/var/backup/sssd-original.conf");
             ("dir", "/opt/card/tokens", None)] new ∧
    (∀ k, k ≠ "restore" → d' !! k = Scenario.document !! k) ∧
    read_config ["restore"] h' = (Ok (YList ([] ++ new)), h').
Proof.
  apply (add_restore_appends_in_order_and_keeps_other_fields
           Scenario.fresh Scenario.conf_path Scenario.document []); reflexivity.
Defined.

(** C7, as the claim has it, fails.  In the document of [Scenario.shared]
    the field [pending] is an alias of the restore list, so [yaml.load]
    gives one list object for both; the append changes that object, and
    [pending], a field other than the restore list, holds the new record
    too, in the loaded data and in the file that [yaml.dump] writes. *)
Lemma add_restore_changes_a_field_that_shares_the_list :
  let h := Scenario.shared in
  let record := restore_record "file" "/etc/sssd/sssd.conf" None in
  let out := add_restore "file" "/etc/sssd/sssd.conf" None h in
  read_config ["pending"; "restore"] h = (Ok (YList [YList []; YList []]), h) ∧
  out.1 = Ok tt ∧
  read_config ["pending"; "restore"] out.2 =
    (Ok (YList [YList [record]; YList [record]]), out.2) ∧
  fs out.2 !! Scenario.conf_path =
    Some (File (YamlShared
                  (YDict (<["pending" := YList [record]]>
                            (<["restore" := YList [record]]> Scenario.document)))
                  [[AtKey "pending"]])).
Proof. by_running. Qed.

(** C10.  When the configuration document has no restore list, [add_restore]
    ends with the [KeyError] of the lookup, before anything is written:
    the file system, the accounts and the trace are as they were. *)
Theorem add_restore_without_restore_list_writes_nothing
    (h : host) (conf : string) (d : gmap string yaml)
    (type_ src : string) (backup : option string) :
  env h !! "CONF" = Some conf →
  fs h !! conf = Some (File (Yaml (YDict d))) →
  d !! "restore" = None →
  ∃ h', add_restore type_ src backup h = (Raise (KeyError "restore"), h') ∧
        fs h' = fs h ∧ users h' = users h ∧ env h' = env h ∧ trace h' = trace h.
Proof.
  intros He Hf Hr. exists (warned type_ h).
  destruct (warned_fields type_ h) as (We & Wf & Wu & Wt & _).
  split; [|by rewrite We, Wf, Wu, Wt].
  unfold add_restore, warned, read_env, yaml_load_shared, dump_to, yaml_dump, append_in_place, open_r, subscript.
  run. rewrite He. simpl. rewrite Hf. simpl.
  destruct (known_type type_); simpl; rewrite Hr; reflexivity.
Qed.

Lemma add_restore_without_restore_list_witness :
  ∃ h', add_restore "file" "/etc/sssd/sssd.conf" None Scenario.listless =
          (Raise (KeyError "restore"), h') ∧
        fs h' = fs Scenario.listless ∧ users h' = users Scenario.listless ∧
        env h' = env Scenario.listless ∧ trace h' = trace Scenario.listless.
Proof.
  apply (add_restore_without_restore_list_writes_nothing
           Scenario.listless Scenario.conf_path (delete "restore" Scenario.document));
    reflexivity.
Defined.

(** ** The cleanup engine *)

Lemma cleanup_cons item rest h :
  cleanup_ (item :: rest) h =
  match cleanup_item item h with
  | (Ok _, h1) => cleanup_ rest h1
  | (Raise e, h1) => (Raise e, h1)
  end.
Proof. reflexivity. Qed.

Lemma cleanup_app pre post : ∀ h h1,
  cleanup_ pre h = (Ok tt, h1) → cleanup_ (pre ++ post) h = cleanup_ post h1.
Proof.
  induction pre as [|item pre IH]; intros h h1 Hpre.
  - injection Hpre as <-. reflexivity.
  - simpl app. rewrite cleanup_cons in *.
    destruct (cleanup_item item h) as [[[]|e] h0]; [by apply IH | discriminate].
Qed.

(** The reversal of a record that [add_restore] wrote with the kind "file". *)
Lemma cleanup_item_file src backup h :
  cleanup_item (restore_record "file" src backup) h =
  match nonempty backup with
  | Some b =>
      (copyfile b src ;; logger DEBUG "File {} is restored form {}" [YStr src; YStr b]) h
  | None => (remove src ;; logger DEBUG "File {} is deleted" [YStr src]) h
  end.
Proof.
  destruct (restore_record_lookup "file" src backup) as (d & -> & Ht & Hs & Hb & _).
  unfold cleanup_item, subscript. run. rewrite Ht, Hs, Hb. simpl.
  destruct backup as [b|]; simpl; [|reflexivity].
  destruct (String.eqb b ""); reflexivity.
Qed.

Lemma cleanup_item_file_absent p h :
  fs h !! p = None →
  cleanup_item (restore_record "file" p None) h = (Raise (FileNotFoundError p), h).
Proof.
  intros Hp. rewrite cleanup_item_file. unfold remove. run. by rewrite Hp.
Qed.

(** The deletion of a directory that is not there goes through. *)
Lemma cleanup_item_dir_absent p h :
  fs h !! p = None →
  cleanup_item (restore_record "dir" p None) h =
  (Ok tt, add_log (Log DEBUG "Directory {} is deleted" [YStr p]) h).
Proof.
  intros Hp.
  destruct (restore_record_lookup "dir" p None) as (d & -> & Ht & Hs & Hb & _).
  unfold cleanup_item, subscript, rmtree_ignore_errors. run. rewrite Ht, Hs, Hb. simpl.
  by rewrite Hp.
Qed.


(** C1, as the code has it.  The engine reverses the records in the order
    of the journal; the first record whose reversal raises ends the pass:
    the exception leaves [cleanup_], the host stays as it was at the
    failure, and no later record is attempted. *)
Theorem cleanup_stops_at_first_failure
    (pre : list yaml) (item : yaml) (post : list yaml) (h h1 : host) (e : exn) (h2 : host) :
  cleanup_ pre h = (Ok tt, h1) →
  cleanup_item item h1 = (Raise e, h2) →
  cleanup_ (pre ++ item :: post) h = (Raise e, h2).
Proof.
  intros Hpre Hitem. rewrite (cleanup_app _ _ _ _ Hpre), cleanup_cons.
  by rewrite Hitem.
Qed.

Lemma cleanup_stops_at_first_failure_witness :
  cleanup_ ([restore_record "dir" "/home/alice" None]
            ++ restore_record "file" "/tmp/gone" None
            :: [restore_record "file" "/tmp/stale" None]) Scenario.fresh =
  (Raise (FileNotFoundError "/tmp/gone"),
   (cleanup_ [restore_record "dir" "/home/alice" None] Scenario.fresh).2).
Proof.
  apply (cleanup_stops_at_first_failure
           [restore_record "dir" "/home/alice" None]
           (restore_record "file" "/tmp/gone" None)
           [restore_record "file" "/tmp/stale" None]
           Scenario.fresh
           (cleanup_ [restore_record "dir" "/home/alice" None] Scenario.fresh).2).
  - vm_compute. reflexivity.
  - vm_compute. reflexivity.
Defined.

(** C1, as the claim has it, fails.  The first record names a file that is
    gone, the second a file that is there: [cleanup_] ends with the
    exception of the first and leaves the second file in place, where an
    engine that attempts every record reports the failure and removes it. *)
Lemma cleanup_failure_blocks_later_records :
  let journal := [restore_record "file" "/tmp/gone" None;
                  restore_record "file" "/tmp/stale" None] in
  cleanup_ journal Scenario.fresh =
    (Raise (FileNotFoundError "/tmp/gone"), Scenario.fresh) ∧
  fs Scenario.fresh !! "/tmp/stale" = Some (File (Text "stale")) ∧
  (cleanup_every_record journal Scenario.fresh).1 =
    Ok [Some (FileNotFoundError "/tmp/gone"); None] ∧
  fs (cleanup_every_record journal Scenario.fresh).2 !! "/tmp/stale" = None.
Proof. by_running. Qed.

(** C2, on the code.  A record that [add_restore] wrote with the kind
    "user" holds the account name under the key "src"; [cleanup_] looks
    for it under "username" and ends with a [KeyError] before [userdel]
    runs: the host is untouched and the records after it are not reached. *)
Theorem cleanup_of_appended_user_record_raises
    (user : string) (backup : option string) (rest : list yaml) (h : host) :
  cleanup_ (restore_record "user" user backup :: rest) h =
  (Raise (KeyError "username"), h).
Proof.
  rewrite cleanup_cons.
  destruct (restore_record_lookup "user" user backup) as (d & -> & Ht & _ & _ & Hu).
  unfold cleanup_item, subscript. run. rewrite Ht. simpl. by rewrite Hu.
Qed.

(** The scenario of the specification: alice is appended and cleaned up,
    and is still there with her home directory. *)
Example alice_survives_cleanup :
  let out := (add_restore "user" "alice" None ;; cleanup_command_spec) Scenario.fresh in
  out.1 = Raise (KeyError "username") ∧
  users out.2 !! "alice" = Some "/home/alice" ∧
  fs out.2 !! "/home/alice" = Some Dir.
Proof. by_running. Qed.

(** A record with the key the engine reads gets as far as [userdel]; on
    this host, where [userdel] works, the account and what lies below its
    home directory are gone. *)
Example userdel_on_username_record :
  let item := YDict (<["type" := YStr "user"]> (<["username" := YStr "alice"]> ∅)) in
  let out := cleanup_ [item] Scenario.fresh in
  out.1 = Ok tt ∧ users out.2 !! "alice" = None ∧
  fs out.2 !! "/home/alice" = None ∧ fs out.2 !! "/home/alice/.profile" = None.
Proof. by_running. Qed.

(** C5, on the code.  A journal with one File record without backup: the
    first pass deletes the file, the second pass over the same journal
    ends with [FileNotFoundError]. *)
Theorem second_cleanup_pass_over_deleted_file_raises :
  let journal := [restore_record "file" "/tmp/stale" None] in
  let first := cleanup_ journal Scenario.fresh in
  first.1 = Ok tt ∧
  fs first.2 !! "/tmp/stale" = None ∧
  (cleanup_ journal first.2).1 = Raise (FileNotFoundError "/tmp/stale").
Proof. by_running. Qed.

(** The Directory half of C5 holds: a second pass over Directory records
    without backup raises nothing. *)
Lemma second_cleanup_pass_over_deleted_dirs (paths : list string) : ∀ h,
  Forall (λ p, fs h !! p = None) paths →
  (cleanup_ (map (λ p, restore_record "dir" p None) paths) h).1 = Ok tt.
Proof.
  induction paths as [|p paths IH]; intros h Hall; [reflexivity|].
  inversion Hall as [|? ? Hp Hrest]; subst.
  simpl map. rewrite cleanup_cons, (cleanup_item_dir_absent _ _ Hp).
  apply IH. exact Hrest.
Qed.



(** The unknown kind on a host: appended, loaded, skipped. *)
Example unknown_kind_round_trip :
  let out := (add_restore "service" "pcscd" None ;; cleanup_command_spec) Scenario.fresh in
  out.1 = Ok tt ∧
  map lvl (log out.2) = [WARNING; WARNING].
Proof. by_running. Qed.

(** ** What a computation leaves as it was

    [preserves R m]: every run of [m] takes a host to a host related to it
    by [R], however the run ends.  For a reflexive and transitive [R] this
    goes through the monad's combinators. *)

Section Preserves.

Context (R : host → host → Prop) {R_refl : Reflexive R} {R_trans : Transitive R}.

Definition preserves {A} (m : M A) : Prop := ∀ h, R h (m h).2.

Lemma preserves_ret {A} (a : A) : preserves (ret a).
Proof. intros h. apply R_refl. Qed.

Lemma preserves_raise {A} e : preserves (@raise A e).
Proof. intros h. apply R_refl. Qed.

Lemma preserves_get : preserves get.
Proof. intros h. apply R_refl. Qed.

Lemma preserves_bind {A B} (m : M A) (k : A → M B) :
  preserves m → (∀ a, preserves (k a)) → preserves (m ≫= k).
Proof.
  intros Hm Hk h. unfold mbind, M_bind, bind. specialize (Hm h).
  destruct (m h) as [[a|e] h1]; simpl in *; [|done].
  etrans; [exact Hm | apply Hk].
Qed.

Lemma preserves_try_except {A} (m : M A) catches handler :
  preserves m → (∀ e, preserves (handler e)) → preserves (try_except m catches handler).
Proof.
  intros Hm Hk h. unfold try_except. specialize (Hm h).
  destruct (m h) as [[a|e] h1]; simpl in *; [done|].
  destruct (catches e); [|done]. etrans; [exact Hm | apply Hk].
Qed.

Lemma preserves_try_finally {A} (m : M A) f :
  preserves m → preserves f → preserves (try_finally m f).
Proof.
  intros Hm Hf h. unfold try_finally. specialize (Hm h).
  destruct (m h) as [r h1]; simpl in *. specialize (Hf h1).
  destruct (f h1) as [[[]|e] h2]; simpl in *; by etrans.
Qed.

Lemma preserves_for_each {A} (l : list A) body :
  (∀ x, preserves (body x)) → preserves (for_each l body).
Proof.
  intros Hb. induction l as [|x l IH]; simpl.
  - apply preserves_ret.
  - apply preserves_bind; auto.
Qed.

End Preserves.

#[global] Instance grows_refl P : Reflexive (grows P).
Proof. intros h. exists []. by rewrite app_nil_r. Qed.

#[global] Instance grows_trans P : Transitive (grows P).
Proof.
  intros h1 h2 h3 (e1 & H1 & F1) (e2 & H2 & F2). exists (e1 ++ e2).
  split; [by rewrite H2, H1, app_assoc | by apply Forall_app].
Qed.

#[global] Instance only_logs_refl : Reflexive only_logs.
Proof. by intros h. Qed.

#[global] Instance only_logs_trans : Transitive only_logs.
Proof.
  intros h1 h2 h3 (A1 & A2 & A3 & A4 & A5) (B1 & B2 & B3 & B4 & B5).
  repeat split; congruence.
Qed.

#[global] Instance same_users_refl : Reflexive same_users.
Proof. by intros h. Qed.

#[global] Instance same_users_trans : Transitive same_users.
Proof. unfold same_users. intros h1 h2 h3 A B. congruence. Qed.

#[global] Instance same_at_refl p : Reflexive (same_at p).
Proof. by intros h. Qed.

#[global] Instance same_at_trans p : Transitive (same_at p).
Proof. unfold same_at. intros h1 h2 h3 A B. congruence. Qed.

Lemma grows_same (P : event → Prop) h h' : trace h' = trace h → grows P h h'.
Proof. intros E. exists []. by rewrite app_nil_r. Qed.

Lemma grows_mono (P Q : event → Prop) {A} (m : M A) :
  (∀ e, P e → Q e) → preserves (grows P) m → preserves (grows Q) m.
Proof.
  intros HPQ Hm h. destruct (Hm h) as (evs & E & F). exists evs. split; [done|].
  eapply Forall_impl; eauto.
Qed.

(** One library call: its cases, and in each the events it added. *)
Ltac grow_with tac :=
  intros h; simpl;
  repeat case_match; simpl;
  first [ by apply grows_same
        | eexists; split; [simpl; reflexivity | repeat constructor; tac ] ].

Create HintDb effects discriminated.

(** Takes a composed computation apart along its syntax. *)
Ltac walk :=
  cbv zeta;
  repeat first
    [ solve [eauto with effects]
    | apply preserves_ret; apply _
    | apply preserves_raise; apply _
    | apply preserves_get; apply _
    | apply preserves_bind; [apply _ .. | idtac | intros ?]
    | apply preserves_try_except; [apply _ .. | idtac | intros ?]
    | apply preserves_try_finally; [apply _ .. | idtac | idtac]
    | apply preserves_for_each; [apply _ .. | intros ?]
    | match goal with
      | |- preserves _ (match ?x with _ => _ end) => destruct x
      end ].

Section Grows.

Variable P : event → Prop.
Hypothesis P_other : ∀ e, not_append e → P e.

Ltac grow := grow_with ltac:(apply P_other; exact I).

Lemma grows_read_env item : preserves (grows P) (read_env item).
Proof. unfold read_env. grow. Qed.

Lemma grows_exists p : preserves (grows P) (exists_ p).
Proof. unfold exists_. grow. Qed.

Lemma grows_open_r p : preserves (grows P) (open_r p).
Proof. unfold open_r. grow. Qed.

Lemma grows_open_w p c : preserves (grows P) (open_w p c).
Proof. unfold open_w. grow. Qed.

Lemma grows_dump_to p data aliases : preserves (grows P) (dump_to p data aliases).
Proof. unfold dump_to. grow. Qed.

Lemma grows_chmod p mode : preserves (grows P) (chmod p mode).
Proof. unfold chmod. grow. Qed.

Lemma grows_remove p : preserves (grows P) (remove p).
Proof. unfold remove. grow. Qed.

Lemma grows_copyfile src dst : preserves (grows P) (copyfile src dst).
Proof. unfold copyfile. grow. Qed.

Lemma grows_rmtree p : preserves (grows P) (rmtree_ignore_errors p).
Proof. unfold rmtree_ignore_errors. grow. Qed.

Lemma grows_copytree src dst : preserves (grows P) (copytree src dst).
Proof. unfold copytree. grow. Qed.

Lemma grows_mkdir_p p : preserves (grows P) (mkdir_p p).
Proof. unfold mkdir_p. grow. Qed.

Lemma grows_getpwnam u : preserves (grows P) (getpwnam u).
Proof. unfold getpwnam. grow. Qed.

Lemma grows_run_program cmd : preserves (grows P) (run_program cmd).
Proof. unfold run_program, external. grow. Qed.

Lemma grows_popen_passwd u p : preserves (grows P) (popen_passwd u p).
Proof. unfold popen_passwd, modify. grow. Qed.

Lemma grows_logger l m a : preserves (grows P) (logger l m a).
Proof. unfold logger, modify. grow. Qed.

Lemma grows_as_path v : preserves (grows P) (as_path v).
Proof. unfold as_path. grow. Qed.

Lemma grows_subscript v k : preserves (grows P) (subscript v k).
Proof. unfold subscript. grow. Qed.

Hint Resolve grows_read_env grows_exists grows_open_r grows_open_w grows_dump_to grows_chmod
  grows_remove grows_copyfile grows_rmtree grows_copytree grows_mkdir_p grows_getpwnam
  grows_run_program grows_popen_passwd grows_logger grows_as_path grows_subscript : effects.

Lemma grows_check_output cmd : preserves (grows P) (check_output cmd).
Proof. unfold check_output. walk. Qed.

Lemma grows_yaml_load p : preserves (grows P) (yaml_load p).
Proof. unfold yaml_load. walk. Qed.

Lemma grows_read_file p : preserves (grows P) (read_file p).
Proof. unfold read_file. walk. Qed.

Lemma grows_cnf_set cnf section option_ value :
  preserves (grows P) (cnf_set cnf section option_ value).
Proof. unfold cnf_set. walk. Qed.

Lemma grows_write_dict path d : preserves (grows P) (write_dict path d).
Proof. unfold write_dict. walk. Qed.

Hint Resolve grows_check_output grows_yaml_load grows_read_file grows_cnf_set
  grows_write_dict : effects.

Lemma grows_load_config : preserves (grows P) load_config.
Proof. unfold load_config. walk. Qed.

Hint Resolve grows_load_config : effects.

Lemma grows_read_parts last parts : ∀ value acc,
  preserves (grows P) (read_parts last parts value acc).
Proof. induction parts; intros; simpl; walk. Qed.

Hint Resolve grows_read_parts : effects.

Lemma grows_read_items data items : ∀ acc,
  preserves (grows P) (read_items data items acc).
Proof. induction items; intros; simpl; walk. Qed.

Hint Resolve grows_read_items : effects.

Lemma grows_read_config items : preserves (grows P) (read_config items).
Proof. unfold read_config. walk. Qed.

Lemma grows_backup target name_ : preserves (grows P) (backup_ target name_).
Proof. unfold backup_. walk. Qed.

Lemma grows_add_restore type_ src backup :
  P (EvAppend (restore_record type_ src backup)) →
  preserves (grows P) (add_restore type_ src backup).
Proof.
  intros Hrec. unfold add_restore. walk.
  intros h. exists [EvAppend (restore_record type_ src backup)].
  split; [reflexivity | by constructor].
Qed.

Hint Resolve grows_read_config grows_backup : effects.

Lemma grows_create_cnf user conf_dir ca_dir :
  preserves (grows P) (create_cnf user conf_dir ca_dir).
Proof. unfold create_cnf. walk. Qed.

Lemma grows_create_softhsm2_config card_dir_ :
  preserves (grows P) (create_softhsm2_config card_dir_).
Proof. unfold create_softhsm2_config. walk. Qed.

Lemma grows_prepare_dir dir_path conf : preserves (grows P) (prepare_dir dir_path conf).
Proof. unfold prepare_dir. walk. Qed.

Hint Resolve grows_create_cnf grows_create_softhsm2_config grows_prepare_dir : effects.

Lemma grows_prep_tmp_dirs : preserves (grows P) prep_tmp_dirs.
Proof. unfold prep_tmp_dirs. walk. Qed.

Lemma grows_setup_ca SETUP_CA env_file : preserves (grows P) (setup_ca_ SETUP_CA env_file).
Proof. unfold setup_ca_. walk. Qed.

Lemma grows_setup_virt_card SETUP_VSC user :
  preserves (grows P) (setup_virt_card_ SETUP_VSC user).
Proof. unfold setup_virt_card_. walk. Qed.

Lemma grows_cleanup_ca CLEANUP_CA : preserves (grows P) (cleanup_ca CLEANUP_CA).
Proof. unfold cleanup_ca, subp_run. walk. Qed.

End Grows.

#[global] Hint Resolve grows_read_env grows_exists grows_open_r grows_open_w grows_dump_to grows_chmod
  grows_remove grows_copyfile grows_rmtree grows_copytree grows_mkdir_p grows_getpwnam
  grows_run_program grows_popen_passwd grows_logger grows_as_path grows_subscript
  grows_check_output grows_yaml_load grows_read_file grows_cnf_set grows_write_dict
  grows_load_config grows_read_config grows_backup
  grows_create_cnf grows_create_softhsm2_config grows_prepare_dir grows_prep_tmp_dirs
  grows_setup_ca grows_setup_virt_card : effects.

Lemma appends_file_other e : not_append e → appends_file e.
Proof. by destruct e. Qed.

#[global] Hint Resolve appends_file_other : effects.

Lemma grows_add_restore_file src backup :
  preserves (grows appends_file) (add_restore "file" src backup).
Proof. apply grows_add_restore; [apply appends_file_other | by exists src, backup]. Qed.

#[global] Hint Resolve grows_add_restore_file : effects.

Lemma grows_create_sssd_config : preserves (grows appends_file) create_sssd_config.
Proof. unfold create_sssd_config. walk. Qed.

Lemma grows_create_virt_card_service username card_dir_ :
  preserves (grows appends_file) (create_virt_card_service username card_dir_).
Proof. unfold create_virt_card_service. walk. Qed.

#[global] Hint Resolve grows_create_sssd_config grows_create_virt_card_service : effects.

Lemma grows_create_sc SETUP_VSC user :
  preserves (grows appends_file) (create_sc SETUP_VSC user).
Proof. unfold create_sc. walk. Qed.

Lemma grows_run_step SETUP_CA SETUP_VSC s :
  preserves (grows appends_file) (run_step SETUP_CA SETUP_VSC s).
Proof.
  destruct s; simpl; auto using grows_create_sc with effects.
Qed.

(** ** Records of files under cleanup *)

Lemma cleanup_item_file_keeps src backup h :
  let h' := (cleanup_item (restore_record "file" src backup) h).2 in
  users h' = users h ∧ ∀ p, p ≠ src → fs h' !! p = fs h !! p.
Proof.
  simpl. rewrite cleanup_item_file.
  destruct (nonempty backup) as [b|]; unfold copyfile, remove; run;
    repeat case_match; simplify_eq; simpl; (split; [reflexivity|]); intros p Hp;
    first [ reflexivity | by apply lookup_insert_ne | by apply lookup_delete_ne ].
Qed.

Lemma cleanup_file_records_keep_users journal : ∀ h,
  Forall file_record journal → users (cleanup_ journal h).2 = users h.
Proof.
  induction journal as [|item journal IH]; intros h Hall; [reflexivity|].
  inversion Hall as [|? ? (src & backup & ->) Hrest]; subst.
  rewrite cleanup_cons.
  pose proof (cleanup_item_file_keeps src backup h) as [Hu _]. simpl in Hu.
  destruct (cleanup_item (restore_record "file" src backup) h) as [[[]|e] h1]; simpl in *.
  - rewrite IH; done.
  - exact Hu.
Qed.

Lemma cleanup_file_records_elsewhere p journal : ∀ h,
  Forall (λ r, ∃ src backup, r = restore_record "file" src backup ∧ src ≠ p) journal →
  fs (cleanup_ journal h).2 !! p = fs h !! p.
Proof.
  induction journal as [|item journal IH]; intros h Hall; [reflexivity|].
  inversion Hall as [|? ? (src & backup & -> & Hne) Hrest]; subst.
  rewrite cleanup_cons.
  pose proof (cleanup_item_file_keeps src backup h) as [_ Hf]. simpl in Hf.
  specialize (Hf p (not_eq_sym Hne)).
  destruct (cleanup_item (restore_record "file" src backup) h) as [[[]|e] h1]; simpl in *.
  - rewrite IH; done.
  - exact Hf.
Qed.

(** ** What provisioning appends *)

(** C9.  Whatever step of provisioning runs, on whatever host and however
    it ends, each record it appended through [add_restore] is a record of
    kind "file"; [setup_virt_card_], which is where [useradd] runs, appends
    no record at all; and a cleanup pass over records of kind "file", the
    only ones provisioning writes, leaves the accounts of the host as they
    are. *)
Theorem provisioning_appends_only_file_records (SETUP_CA SETUP_VSC : string) :
  (∀ (s : step) (h : host),
     ∃ evs, trace (run_step SETUP_CA SETUP_VSC s h).2 = trace h ++ evs ∧
            ∀ r, EvAppend r ∈ evs → file_record r) ∧
  (∀ (user : sc_user) (h : host),
     ∃ evs, trace (setup_virt_card_ SETUP_VSC user h).2 = trace h ++ evs ∧
            ∀ r, EvAppend r ∉ evs) ∧
  (∀ (journal : list yaml) (h : host),
     Forall file_record journal → users (cleanup_ journal h).2 = users h).
Proof.
  split; [|split].
  - intros s h. destruct (grows_run_step SETUP_CA SETUP_VSC s h) as (evs & E & F).
    exists evs. split; [exact E|]. intros r Hr.
    rewrite Forall_forall in F. exact (F _ Hr).
  - intros user h.
    destruct (grows_setup_virt_card not_append (λ e H, H) SETUP_VSC user h) as (evs & E & F).
    exists evs. split; [exact E|]. intros r Hr.
    rewrite Forall_forall in F. exact (F _ Hr).
  - intros journal h. apply cleanup_file_records_keep_users.
Qed.

(** The account that [setup_virt_card_] makes: bob is added with
    [useradd], nothing is appended to the journal, and a cleanup pass over
    the journal afterwards leaves bob and his home directory. *)
Example provisioned_account_outlives_cleanup :
  let h := (setup_virt_card_ "/usr/share/setup_virt_card.sh" Scenario.bob
              Scenario.configured).2 in
  users Scenario.configured !! "bob" = None ∧
  users h !! "bob" = Some "/home/bob" ∧
  read_config ["restore"] h = (Ok (YList []), h) ∧
  users (cleanup_command_spec h).2 !! "bob" = Some "/home/bob" ∧
  fs (cleanup_command_spec h).2 !! "/home/bob" = Some Dir.
Proof. by_running. Qed.

(** ** The journaling steps *)

Lemma backup_file_cases target_ name_ h c :
  fs h !! target_ = Some (File c) →
  (∃ e, backup_ target_ name_ h = (Raise e, h)) ∨
  (∃ b, backup_ target_ name_ h =
          (Ok (Some b), emit (EvCopyfile target_ b) (set_fs (insert b (File c)) h))).
Proof.
  intros Hf. unfold backup_, try_except, read_env, copyfile. run. rewrite Hf. simpl.
  destruct (env h !! "BACKUP") as [root|]; simpl. 2:{ left; eexists; reflexivity. }
  destruct (fresh_path _ _ _) as [dst|]; simpl; [|(left; eexists; reflexivity)].
  rewrite Hf. destruct (String.eqb target_ dst); simpl; [(left; eexists; reflexivity)|].
  destruct (fs h !! dst) as [[|]|]; simpl; first [left; eexists; reflexivity | right; eexists; reflexivity].
Qed.

Lemma set_place_outside p v d :
  outside_restore p = true →
  ∃ d', set_place p v (YDict d) = YDict d' ∧ d' !! "restore" = d !! "restore".
Proof.
  destruct p as [|[k|i] rest]; try discriminate. simpl. intros Hk.
  eexists. split; [reflexivity|]. apply lookup_alter_ne.
  intros ->. by rewrite String.eqb_refl in Hk.
Qed.

(** Whatever is shared, the document stays a dict and its restore list is
    the old one with the record at its end. *)
Lemma append_in_place_dict d l aliases record :
  ∃ d', append_in_place d l aliases record =
        YDict (<["restore" := YList (l ++ [record])]> d').
Proof.
  unfold append_in_place. cbv zeta.
  assert (H : ∃ d', foldr (λ p data, set_place p (YList (l ++ [record])) data)
                      (YDict (<["restore" := YList (l ++ [record])]> d))
                      (filter (λ p, outside_restore p = true) aliases) = YDict d' ∧
                    d' !! "restore" = Some (YList (l ++ [record]))).
  { induction aliases as [|p aliases IH].
    - eexists. split; [reflexivity | apply lookup_insert_eq].
    - rewrite filter_cons. destruct (decide (outside_restore p = true)) as [Hp|Hp]; [|exact IH].
      destruct IH as (d1 & E1 & H1). simpl. rewrite E1.
      destruct (set_place_outside p (YList (l ++ [record])) d1 Hp) as (d2 & -> & H2).
      exists d2. split; [reflexivity | by rewrite H2]. }
  destruct H as (d' & -> & H'). exists d'. by rewrite insert_id.
Qed.

Lemma add_restore_cases type_ src backup h :
  (∃ e h', add_restore type_ src backup h = (Raise e, h') ∧ only_logs h h') ∨
  (∃ conf d l h', env h !! "CONF" = Some conf ∧
     add_restore type_ src backup h = (Ok tt, h') ∧
     trace h' = trace h ++
       [EvWrite conf (Yaml (YDict (<["restore" :=
                  YList (l ++ [restore_record type_ src backup])]> d)));
        EvAppend (restore_record type_ src backup)]).
Proof.
  destruct (env h !! "CONF") as [conf|] eqn:He.
  2:{ left. exists (UndefinedValueError "CONF"), h. split; [|done].
      unfold add_restore, read_env. run. by rewrite He. }
  destruct (warned_fields type_ h) as (We & Wf & Wu & Wt & Wp).
  assert (Hbad : ∀ e, add_restore type_ src backup h = (Raise e, warned type_ h) →
            ∃ e h', add_restore type_ src backup h = (Raise e, h') ∧ only_logs h h').
  { intros e E. exists e, (warned type_ h). split; [exact E|]. by repeat split. }
  assert (Hload : (∃ e, yaml_load_shared conf h = (Raise e, h)) ∨
                  (∃ y aliases c, yaml_load_shared conf h = (Ok (y, aliases), h) ∧
                                  fs h !! conf = Some (File c))).
  { unfold yaml_load_shared, open_r. run.
    destruct (fs h !! conf) as [[c|]|]; simpl; [|left; eexists; reflexivity ..].
    destruct c; simpl; first [left; eexists; reflexivity | right; by do 3 eexists]. }
  destruct Hload as [[e Hl]|(y & aliases & c & Hl & Hf)].
  { left. exists e, h. split; [|done].
    unfold add_restore, read_env. run. rewrite He. simpl. by rewrite Hl. }
  destruct y as [ | | | |l0|d];
    try (left; apply (Hbad TypeError); unfold add_restore, warned, read_env, subscript;
         run; rewrite He; simpl; rewrite Hl; simpl; by destruct (known_type type_)).
  destruct (d !! "restore") as [v|] eqn:Hr.
  2:{ left. apply (Hbad (KeyError "restore")).
      unfold add_restore, warned, read_env, subscript.
      run. rewrite He. simpl. rewrite Hl. simpl. destruct (known_type type_); simpl; by rewrite Hr. }
  destruct v as [ | | | |l|d'];
    try (left; apply (Hbad AttributeError); unfold add_restore, warned, read_env, subscript;
         run; rewrite He; simpl; rewrite Hl; simpl; destruct (known_type type_); simpl;
         by rewrite Hr).
  right. destruct (append_in_place_dict d l aliases (restore_record type_ src backup))
    as (d1 & Hd1).
  set (record := restore_record type_ src backup) in *.
  set (data := append_in_place d l aliases record) in *.
  assert (E : add_restore type_ src backup h =
              (Ok tt, emit (EvAppend record)
                        (emit (EvWrite conf (Yaml data))
                           (set_fs (insert conf (File (yaml_dump data aliases)))
                              (warned type_ h))))).
  { unfold add_restore, warned, read_env, subscript, dump_to.
    run. rewrite He. simpl. rewrite Hl. simpl.
    destruct (known_type type_); simpl; rewrite Hr; simpl; rewrite He; simpl;
      rewrite Hf; reflexivity. }
  exists conf, d1, l. eexists. split; [done|]. split; [exact E|].
  simpl. rewrite Wt, Hd1. by rewrite <- app_assoc.
Qed.

Lemma warned_file h : warned "file" h = h.
Proof. reflexivity. Qed.

Lemma exists_true p n h : fs h !! p = Some n → exists_ p h = (Ok true, h).
Proof. intros E. unfold exists_. by rewrite E. Qed.

Lemma exists_false p h : fs h !! p = None → exists_ p h = (Ok false, h).
Proof. intros E. unfold exists_. by rewrite E. Qed.

(** Backup, then append: how far the two calls get. *)
Lemma protect_cases path name_ h c :
  fs h !! path = Some (File c) →
  (∃ e h', (backup_ path name_ ≫= λ bk, add_restore "file" path bk) h = (Raise e, h') ∧
           (trace h' = trace h ∨ ∃ b, trace h' = trace h ++ [EvCopyfile path b])) ∨
  (∃ b conf d l h',
     env h !! "CONF" = Some conf ∧
     (backup_ path name_ ≫= λ bk, add_restore "file" path bk) h = (Ok tt, h') ∧
     trace h' = trace h ++
       [EvCopyfile path b;
        EvWrite conf (Yaml (YDict (<["restore" :=
                   YList (l ++ [restore_record "file" path (Some b)])]> d)));
        EvAppend (restore_record "file" path (Some b))]).
Proof.
  intros Hf.
  destruct (backup_file_cases path name_ h c Hf) as [[e E]|[b E]].
  { left. exists e, h. split; [by apply bind_raise | by left]. }
  rewrite (bind_ok _ _ _ _ _ E).
  destruct (add_restore_cases "file" path (Some b)
              (emit (EvCopyfile path b) (set_fs (insert b (File c)) h)))
    as [(e & h' & E' & L)|(conf & d & l & h' & He & E' & T)].
  - left. exists e, h'. split; [exact E'|]. right. exists b.
    destruct L as (_ & _ & _ & _ & ->). reflexivity.
  - right. exists b, conf, d, l, h'. split; [exact He|]. split; [exact E'|].
    rewrite T. simpl. by rewrite <- app_assoc.
Qed.

Lemma follows_protocol_nil p : follows_protocol p [].
Proof. intros i c Hi. by rewrite lookup_nil in Hi. Qed.

Lemma follows_protocol_copy p b : follows_protocol p [EvCopyfile p b].
Proof. intros [|[|i]] c Hi; simpl in Hi; discriminate. Qed.

Lemma prefix_follows_protocol s b conf d l evs :
  evs `prefix_of` protocol s b conf d l →
  conf ≠ target s →
  follows_protocol (target s) evs.
Proof.
  intros [k Hk] Hne i c Hi.
  assert (Hp : protocol s b conf d l !! i = Some (EvWrite (target s) c)).
  { rewrite Hk. by apply lookup_app_l_Some. }
  destruct i as [|[|[|[|i]]]]; simpl in Hp; try discriminate.
  - injection Hp as E _. by destruct Hne.
  - exists 0%nat, 2%nat, b. split; [lia|].
    destruct evs as [|e0 [|e1 [|e2 evs]]]; try discriminate.
    unfold protocol in Hk. simpl in Hk. injection Hk as <- <- <- _. by split.
  - destruct s; destruct i; simpl in Hp; discriminate.
Qed.

Lemma open_w_cases p c h :
  open_w p c h = (Raise (IsADirectoryError p), h) ∨
  open_w p c h = (Ok tt, emit (EvWrite p c) (set_fs (insert p (File c)) h)).
Proof. unfold open_w. destruct (fs h !! p) as [[|]|]; auto. Qed.

Lemma chmod_ok p mode h n :
  fs h !! p = Some n → chmod p mode h = (Ok tt, emit (EvChmod p mode) h).
Proof. intros E. unfold chmod. by rewrite E. Qed.

Lemma trace_appended conf d l type_ src backup h :
  trace (appended conf d l type_ src backup h) =
  trace h ++ [EvWrite conf (Yaml (YDict (<["restore" :=
                 YList (l ++ [restore_record type_ src backup])]> d)));
              EvAppend (restore_record type_ src backup)].
Proof.
  unfold appended. simpl. destruct (warned_fields type_ h) as (_ & _ & _ & -> & _).
  by rewrite <- app_assoc.
Qed.

(** The guarded part of a journaling step and the overwrite after it. *)
Lemma protect_and_write_cases s name_ h c :
  fs h !! target s = Some (File c) →
  env h !! "CONF" ≠ Some (target s) →
  let m := (backup_ (target s) name_ ≫= λ bk, add_restore "file" (target s) bk) ≫= λ _,
           open_w (target s) (new_content s) in
  ∃ b conf d l,
    let first4 := take 4 (protocol s b conf d l) in
    (∃ e h' evs, m h = (Raise e, h') ∧ trace h' = trace h ++ evs ∧
                 evs `prefix_of` first4 ∧ follows_protocol (target s) evs) ∨
    (∃ h', m h = (Ok tt, h') ∧ trace h' = trace h ++ first4 ∧
           fs h' !! target s = Some (File (new_content s)) ∧ conf ≠ target s).
Proof.
  intros Hf Hc m.
  destruct (protect_cases (target s) name_ h c Hf)
    as [(e & h' & E & [T|[b T]])|(b & conf & d & l & h2 & He & E & T2)].
  - exists "", "", ∅, []. left. exists e, h', []. unfold m.
    split; [by apply bind_raise|]. split; [by rewrite app_nil_r|].
    split; [apply prefix_nil | apply follows_protocol_nil].
  - exists b, "", ∅, []. left. exists e, h', [EvCopyfile (target s) b]. unfold m.
    split; [by apply bind_raise|]. split; [exact T|].
    split; [by eexists | apply follows_protocol_copy].
  - exists b, conf, d, l.
    assert (Hne : conf ≠ target s) by (intros ->; by destruct Hc).
    change (trace h2 = trace h ++ take 3 (protocol s b conf d l)) in T2.
    destruct (open_w_cases (target s) (new_content s) h2) as [W|W].
    + left. exists (IsADirectoryError (target s)), h2, (take 3 (protocol s b conf d l)).
      unfold m. rewrite (bind_ok _ _ _ _ _ E).
      split; [exact W|]. split; [exact T2|].
      split; [by eexists|].
      apply (prefix_follows_protocol s b conf d l); [|exact Hne].
      apply prefix_take.
    + right. eexists. unfold m. rewrite (bind_ok _ _ _ _ _ E).
      split; [exact W|]. cbn [trace emit set_fs]. rewrite T2.
      split; [by rewrite <- app_assoc|].
      split; [simpl; apply lookup_insert_eq | exact Hne].
Qed.

Lemma bind_assoc {A B C} (m : M A) (f : A → M B) (g : B → M C) h :
  ((m ≫= f) ≫= g) h = (m ≫= λ x, f x ≫= g) h.
Proof. unfold mbind, M_bind, bind. by destruct (m h) as [[a|e] h1]. Qed.

Lemma bind_assoc_inner {A B C D} (m : M A) (f : A → M B) (g : B → M C) (k : C → M D) h :
  (m ≫= λ x, (f x ≫= g) ≫= k) h = ((m ≫= f) ≫= λ y, g y ≫= k) h.
Proof.
  unfold mbind, M_bind, bind. destruct (m h) as [[a|e] h1]; [|reflexivity].
  by destruct (f a h1) as [[b|e] h2].
Qed.

Lemma create_sssd_config_present h n :
  fs h !! sssd_conf = Some n →
  create_sssd_config h =
  (((backup_ sssd_conf "sssd-original.conf" ≫= λ bk, add_restore "file" sssd_conf bk) ≫= λ _,
    open_w sssd_conf (Ini sssd_default)) ≫= λ _,
   logger DEBUG "Configuration file for SSSD is updated in  /etc/sssd/sssd.conf" [] ≫= λ _,
   chmod sssd_conf 384) h.
Proof.
  intros Hf. unfold create_sssd_config.
  rewrite (bind_ok _ _ _ _ _ (exists_true _ _ _ Hf)). cbv beta iota.
  symmetry. apply bind_assoc.
Qed.

(** C6, as the code has it.  For the two steps that journal the file they
    write, [create_sssd_config] and [create_virt_card_service], run on a
    host where that file is there: the events of the step are a prefix of
    backup copy, write of the configuration document, append, overwrite of
    the target (and what follows it), in this order; a step that returns
    has gone through all of them; and, the configuration document not
    being the target itself, every overwrite of the target has the append
    of its record before it and the backup copy before that. *)
Theorem journaling_steps_back_up_then_append_then_write
    (s : journaling_step) (h : host) (c : content) :
  fs h !! target s = Some (File c) →
  env h !! "CONF" ≠ Some (target s) →
  ∃ b conf d l evs,
    trace (run_journaling s h).2 = trace h ++ evs ∧
    evs `prefix_of` protocol s b conf d l ∧
    ((run_journaling s h).1 = Ok tt → evs = protocol s b conf d l) ∧
    follows_protocol (target s) evs.
Proof.
  intros Hf Hc. destruct s as [|username card_dir_].
  - destruct (protect_and_write_cases Sssd "sssd-original.conf" h c Hf Hc)
      as (b & conf & d & l & [(e & h' & evs & E & T & Hp & Hfp)|(h' & E & T & Hw & Hne)]);
      exists b, conf, d, l; simpl run_journaling;
      rewrite (create_sssd_config_present _ _ Hf).
    + exists evs. rewrite (bind_raise _ _ _ _ _ E). simpl.
      split; [exact T|]. split; [|split; [discriminate | exact Hfp]].
      etrans; [exact Hp | apply prefix_take].
    + exists (protocol Sssd b conf d l). rewrite (bind_ok _ _ _ _ _ E).
      unfold chmod. run. simpl in Hw. rewrite Hw. simpl.
      split; [rewrite T; by rewrite <- app_assoc|].
      split; [done|]. split; [done|].
      by apply (prefix_follows_protocol Sssd b conf d l).
  - set (s := VirtCard username card_dir_).
    simpl run_journaling. unfold create_virt_card_service, write_dict. cbv zeta.
    change (virt_card_service_path username) with (target s) in *.
    change (dict_content (virt_card_default username card_dir_)) with (new_content s).
    rewrite (bind_ok _ _ _ _ _ (exists_true _ _ _ Hf)). cbv beta iota.
    destruct (split_first "." (basename (target s))) as [|name0 [|name1 rest]].
    1,2: exists "", "", ∅, [], []; cbv beta iota;
         rewrite (bind_raise (raise IndexError) _ h IndexError h eq_refl); simpl;
         split; [by rewrite app_nil_r|]; split; [apply prefix_nil|];
         split; [discriminate | apply follows_protocol_nil].
    cbv beta iota.
    rewrite (bind_assoc_inner
               (backup_ (target s) (name0 +:+ "-original." +:+ name1) ≫= λ bk,
                add_restore "file" (target s) bk)
               (λ _, open_w (target s) (new_content s))).
    destruct (protect_and_write_cases s (name0 +:+ "-original." +:+ name1) h c Hf Hc)
      as (b & conf & d & l & [(e & h' & evs & E & T & Hp & Hfp)|(h' & E & T & Hw & Hne)]);
      exists b, conf, d, l.
    + exists evs. rewrite (bind_raise _ _ _ _ _ E). simpl.
      split; [exact T|]. split; [|split; [discriminate | exact Hfp]].
      etrans; [exact Hp | apply prefix_take].
    + exists (protocol s b conf d l). rewrite (bind_ok _ _ _ _ _ E). run.
      assert (T' : ∀ r, trace h' = trace (add_log r h')) by done.
      split; [destruct (invalid_values _); simpl; rewrite <- ?T', T; done|].
      split; [done|]. split; [done|].
      by apply (prefix_follows_protocol s b conf d l).
Qed.

(** C3, as the code has it.  A journaling step run on a host where its
    target is absent appends no record, however it ends: the events it adds
    are at most the write of the target and, for [create_sssd_config], the
    chmod after it, and no other path of the file system changes, the
    configuration document among them.  A step that returns has created
    the file; a step that ends with the [ValueError] of [read_dict] (a [%]
    in the user name or the card directory) has left it empty.  A cleanup
    pass over a journal of file records that name other paths leaves what
    the step left at the target. *)
Theorem absent_target_is_written_without_record (s : journaling_step) (h : host) :
  fs h !! target s = None →
  let out := run_journaling s h in
  (∃ evs, trace out.2 = trace h ++ evs ∧
          evs `prefix_of` EvWrite (target s) (new_content s) :: after_write s ∧
          (out.1 = Ok tt → evs = EvWrite (target s) (new_content s) :: after_write s)) ∧
  (∀ p, p ≠ target s → fs out.2 !! p = fs h !! p) ∧
  (out.1 = Ok tt → fs out.2 !! target s = Some (File (new_content s))) ∧
  (out.1 = Raise ValueError → fs out.2 !! target s = Some (File (Text ""))) ∧
  ∀ journal,
    Forall (λ r, ∃ src backup, r = restore_record "file" src backup ∧ src ≠ target s)
           journal →
    fs (cleanup_ journal out.2).2 !! target s = fs out.2 !! target s.
Proof.
  intros Hf out.
  assert (Hrun : ∃ r h1, run_journaling s h = (r, h1) ∧
            fs h1 = <[target s := File (new_content s)]> (fs h) ∧
            trace h1 = trace h ++ EvWrite (target s) (new_content s) :: after_write s ∧
            (r = Ok tt ∨ (r = Raise ValueError ∧ new_content s = Text ""))).
  { destruct s as [|username card_dir_]; simpl run_journaling.
    - unfold create_sssd_config.
      rewrite (bind_ok _ _ _ _ _ (exists_false _ _ Hf)). cbv beta iota.
      unfold open_w, chmod. run. simpl in Hf. rewrite Hf. simpl.
      rewrite lookup_insert_eq. do 2 eexists. split; [reflexivity|].
      split; [reflexivity|]. split; [simpl; by rewrite <- app_assoc | by left].
    - unfold create_virt_card_service, write_dict. cbv zeta.
      rewrite (bind_ok _ _ _ _ _ (exists_false _ _ Hf)). cbv beta iota.
      unfold open_w. run. simpl in Hf. rewrite Hf. simpl.
      unfold dict_content.
      destruct (invalid_values (virt_card_default username card_dir_)); simpl;
        do 2 eexists; (split; [reflexivity|]); (split; [reflexivity|]);
        (split; [reflexivity|]); [by right | by left]. }
  destruct Hrun as (r & h1 & E & Hfs & Ht & Hr). unfold out. rewrite E. simpl.
  split; [|split; [|split; [|split]]].
  - eexists. split; [exact Ht|]. split; done.
  - intros p Hp. rewrite Hfs. by apply lookup_insert_ne.
  - intros _. rewrite Hfs. apply lookup_insert_eq.
  - intros ->. destruct Hr as [?|[_ Hc]]; [discriminate|].
    rewrite Hfs, Hc. apply lookup_insert_eq.
  - intros journal Hall. by apply cleanup_file_records_elsewhere.
Qed.

Lemma journaling_steps_order_witness :
  ∃ b conf d l evs,
    trace (run_journaling Sssd Scenario.configured).2 = trace Scenario.configured ++ evs ∧
    evs `prefix_of` protocol Sssd b conf d l ∧
    ((run_journaling Sssd Scenario.configured).1 = Ok tt → evs = protocol Sssd b conf d l) ∧
    follows_protocol (target Sssd) evs.
Proof.
  apply (journaling_steps_back_up_then_append_then_write
           Sssd Scenario.configured (Ini [("sssd", [("services", Some "nss")])])).
  - reflexivity.
  - vm_compute. discriminate.
Defined.

(** The run behind the witness: the step returns, and its events are the
    whole protocol. *)
Example create_sssd_config_on_configured_host :
  let out := create_sssd_config Scenario.configured in
  out.1 = Ok tt ∧
  trace out.2 =
    protocol Sssd "/var/backup/sssd-original.conf" Scenario.conf_path Scenario.document [].
Proof. by_running. Qed.

(** C6, as the claim has it, fails.  [create_sc] for bob on a host with
    an [sssd.conf] and a service file for bob: the service file is backed
    up and journaled before it is overwritten, but [sssd.conf], a file
    that was there and is not the configuration document, is overwritten
    (by [setup_virt_card_]) with no backup copy and no append before it. *)
Lemma create_sc_overwrites_sssd_conf_unjournaled :
  let h := Scenario.configured in
  let evs := new_events h (run_step "/usr/share/setup_ca.sh" "/usr/share/setup_virt_card.sh"
                             (CreateSc Scenario.bob) h).2 in
  fs h !! sssd_conf = Some (File (Ini [("sssd", [("services", Some "nss")])])) ∧
  env h !! "CONF" = Some Scenario.conf_path ∧
  evs = Scenario.bob_events ∧
  follows_protocol (virt_card_service_path "bob") evs ∧
  ¬ follows_protocol sssd_conf evs.
Proof.
  cbv zeta.
  assert (E : new_events Scenario.configured
                (run_step "/usr/share/setup_ca.sh" "/usr/share/setup_virt_card.sh"
                   (CreateSc Scenario.bob) Scenario.configured).2 = Scenario.bob_events)
    by (vm_compute; reflexivity).
  rewrite E. unfold Scenario.bob_events.
  split; [reflexivity|]. split; [reflexivity|]. split; [reflexivity|]. split.
  - intros i c Hi. scan i Hi.
    exists 3%nat, 5%nat, "/var/backup/virt_cacard_bob-original.service".
    split; [lia|]. split; reflexivity.
  - intros H. destruct (H 10%nat _ eq_refl) as (k & j & b & _ & Hk & _).
    scan k Hk.
Qed.

Lemma absent_target_witness :
  let out := run_journaling Sssd Scenario.fresh in
  (∃ evs, trace out.2 = trace Scenario.fresh ++ evs ∧
          evs `prefix_of` EvWrite (target Sssd) (new_content Sssd) :: after_write Sssd ∧
          (out.1 = Ok tt → evs = EvWrite (target Sssd) (new_content Sssd) :: after_write Sssd)) ∧
  (∀ p, p ≠ target Sssd → fs out.2 !! p = fs Scenario.fresh !! p) ∧
  (out.1 = Ok tt → fs out.2 !! target Sssd = Some (File (new_content Sssd))) ∧
  (out.1 = Raise ValueError → fs out.2 !! target Sssd = Some (File (Text ""))) ∧
  ∀ journal,
    Forall (λ r, ∃ src backup, r = restore_record "file" src backup ∧ src ≠ target Sssd)
           journal →
    fs (cleanup_ journal out.2).2 !! target Sssd = fs out.2 !! target Sssd.
Proof.
  apply (absent_target_is_written_without_record Sssd Scenario.fresh). reflexivity.
Defined.

(** [BasicInterpolation.before_set] on some values, as Python has it:
    a lone [%] and an empty or unfinished reference are refused, [%%] and
    [%(name)s] are let through. *)
Example values_that_read_dict_refuses :
  map invalid_interpolation ["a%b"; "%"; "%()s"; "%(a)"; "%(%%)s"; "%(a)sx%"] =
    [true; true; true; true; true; true] ∧
  map invalid_interpolation [""; "a%%b"; "%(x)s"; "%%(a)s"; "%(a%%)s"; "/opt/card"] =
    [false; false; false; false; false; false].
Proof. by_running. Qed.

(** [setup_virt_card_] reads back the [sssd.conf] that [create_sssd_config]
    wrote: the lines [#<[sssd]>] and the like are comments to
    [read_file], and the file it writes has them no more. *)
Example sssd_conf_loses_its_comment_lines :
  let out := (create_sssd_config ;;
              setup_virt_card_ "/usr/share/setup_virt_card.sh" Scenario.bob) Scenario.fresh in
  out.1 = Ok tt ∧
  fs out.2 !! sssd_conf =
    Some (File (Ini [("sssd", [("debug_level", Some "9"); ("services", Some "nss, pam");
                               ("domains", Some "shadowutils")]);
                     ("nss", [("debug_level", Some "9")]);
                     ("pam", [("debug_level", Some "9"); ("pam_cert_auth", Some "True")]);
                     ("domain/shadowutils", [("debug_level", Some "9");
                                             ("id_provider", Some "files")]);
                     ("certmap/shadowutils/bob",
                      [("matchrule", Some "<SUBJECT>.*CN=bob.*")])])).
Proof. by_running. Qed.

(** The two ends of [create_virt_card_service] on a host without the
    service file.  For carol the file is written; for the name [100%]
    [read_dict] raises inside the [with] block, after [open] has made the
    file, which stays empty.  Neither run appends a record. *)
Example service_file_for_a_name_with_a_percent_sign :
  let good := create_virt_card_service "carol" "/opt/carol" Scenario.fresh in
  let bad := create_virt_card_service "100%" "/opt/carol" Scenario.fresh in
  good.1 = Ok tt ∧
  fs good.2 !! virt_card_service_path "carol" =
    Some (File (Ini (virt_card_default "carol" "/opt/carol"))) ∧
  trace good.2 = [EvWrite (virt_card_service_path "carol")
                          (Ini (virt_card_default "carol" "/opt/carol"))] ∧
  bad.1 = Raise ValueError ∧
  fs bad.2 !! virt_card_service_path "100%" = Some (File (Text "")) ∧
  trace bad.2 = [EvWrite (virt_card_service_path "100%") (Text "")].
Proof. by_running. Qed.

(** C3, as the claim has it, fails.  [sssd.conf] is absent; the step
    creates it; the journal that a cleanup pass loads afterwards is still
    empty, the pass goes through, and the file is still there. *)
Lemma created_file_survives_cleanup :
  let created := (create_sssd_config Scenario.fresh).2 in
  let out := cleanup_command_spec created in
  fs Scenario.fresh !! sssd_conf = None ∧
  (create_sssd_config Scenario.fresh).1 = Ok tt ∧
  (read_config ["restore"] created).1 = Ok (YList []) ∧
  out.1 = Ok tt ∧
  fs out.2 !! sssd_conf = Some (File (Ini sssd_default)).
Proof. by_running. Qed.

(** ** The cleanup command *)

Lemma only_logs_read_env item : preserves only_logs (read_env item).
Proof. intros h. unfold read_env. by destruct (env h !! item). Qed.

Lemma only_logs_open_r p : preserves only_logs (open_r p).
Proof. intros h. unfold open_r. by destruct (fs h !! p) as [[|]|]. Qed.

Lemma only_logs_logger l m a : preserves only_logs (logger l m a).
Proof. by intros h. Qed.

#[global] Hint Resolve only_logs_read_env only_logs_open_r only_logs_logger : effects.

Lemma only_logs_load_config : preserves only_logs load_config.
Proof. unfold load_config, yaml_load. walk. Qed.

#[global] Hint Resolve only_logs_load_config : effects.

Lemma only_logs_read_parts last parts : ∀ value acc,
  preserves only_logs (read_parts last parts value acc).
Proof. induction parts; intros; simpl; walk. Qed.

#[global] Hint Resolve only_logs_read_parts : effects.

Lemma only_logs_read_items data items : ∀ acc,
  preserves only_logs (read_items data items acc).
Proof. induction items; intros; simpl; walk. Qed.

#[global] Hint Resolve only_logs_read_items : effects.

Lemma only_logs_read_config items : preserves only_logs (read_config items).
Proof. unfold read_config. walk. Qed.
















(** The function called directly, as a test would.  With an empty restore
    list and a cleanup script that fails it ends with the
    [AssertionError] of its last line; with a journal whose record cannot
    be reversed and a script that works it returns, and the journal is as
    it was. *)
Example cleanup_ca_ignores_the_journal :
  let h := (add_restore "file" "/tmp/gone" None Scenario.fresh).2 in
  exits_zero (cleanup_command_spec Scenario.broken) = true ∧
  (cleanup_ca "/usr/share/cleanup_ca.sh" Scenario.broken).1 = Raise AssertionError ∧
  (cleanup_command_spec h).1 = Raise (FileNotFoundError "/tmp/gone") ∧
  (cleanup_ca "/usr/share/cleanup_ca.sh" h).1 = Ok tt ∧
  new_events h (cleanup_ca "/usr/share/cleanup_ca.sh" h).2 =
    [EvExec ["bash"; "/usr/share/cleanup_ca.sh"; "--username"; "alice"] 0] ∧
  read_config ["restore"] (cleanup_ca "/usr/share/cleanup_ca.sh" h).2 =
    (Ok (YList [restore_record "file" "/tmp/gone" None]),
     (cleanup_ca "/usr/share/cleanup_ca.sh" h).2).
Proof. by_running. Qed.

(** * Further properties of the code *)

(** ** [read_config] and [add_restore] *)

(** [s] has no dot in it. *)
Fixpoint dot_free (s : string) : bool :=
  match s with
  | EmptyString => true
  | String a rest => negb (Ascii.eqb a ".") && dot_free rest
  end.

Lemma split_on_dot_free k : dot_free k = true → split_on "." k = [k].
Proof.
  induction k as [|a k IH]; [done|]. simpl. intros [Ha Hk]%andb_prop.
  apply negb_true_iff in Ha. rewrite Ha, (IH Hk). reflexivity.
Qed.

Lemma split_on_dotted a s :
  dot_free a = true → split_on "." (a +:+ "." +:+ s) = a :: split_on "." s.
Proof.
  induction a as [|c a IH]; [done|]. simpl. intros [Ha Hk]%andb_prop.
  apply negb_true_iff in Ha. rewrite Ha. simpl in IH. rewrite (IH Hk). reflexivity.
Qed.

Lemma load_config_ok h conf d :
  env h !! "CONF" = Some conf →
  fs h !! conf = Some (File (Yaml (YDict d))) →
  d ≠ ∅ →
  load_config h = (Ok (YDict d), h).
Proof.
  intros He Hf Hd.
  unfold load_config, try_except, read_env, yaml_load, open_r. run.
  rewrite He. simpl. rewrite Hf. simpl.
  by rewrite (bool_decide_eq_false_2 _ Hd).
Qed.

Lemma read_items_top_level d items : ∀ acc h,
  Forall (λ k, dot_free k = true) items →
  read_items (YDict d) items acc h =
  (Ok (Some (acc ++ map (λ k, default YNull (d !! k)) items)), h).
Proof.
  induction items as [|k items IH]; intros acc h Hall.
  - simpl. by rewrite app_nil_r.
  - inversion Hall as [|? ? Hk Hrest]; subst. simpl.
    rewrite (split_on_dot_free _ Hk). simpl. run.
    rewrite String.eqb_refl. rewrite (IH _ _ Hrest). by rewrite <- app_assoc.
Qed.

(** X1.  [read_config] on keys without a dot, for a configuration
    document that is a non-empty dict: one key gives the value stored
    under it, two or more give the list of the values in the order of the
    keys, and no key at all ends with [IndexError]; a key that the
    document lacks gives [None] in its place, without a warning. *)
Theorem read_config_of_top_level_keys
    (h : host) (conf : string) (d : gmap string yaml) (items : list string) :
  env h !! "CONF" = Some conf →
  fs h !! conf = Some (File (Yaml (YDict d))) →
  d ≠ ∅ →
  Forall (λ k, dot_free k = true) items →
  read_config items h =
  (match items with
   | [] => Raise IndexError
   | [k] => Ok (default YNull (d !! k))
   | _ => Ok (YList (map (λ k, default YNull (d !! k)) items))
   end, h).
Proof.
  intros He Hf Hd Hall. unfold read_config.
  rewrite (bind_ok _ _ _ _ _ (load_config_ok _ _ _ He Hf Hd)).
  rewrite (bind_ok _ _ _ _ _ (read_items_top_level d items [] h Hall)).
  destruct items as [|k [|k2 items]]; reflexivity.
Qed.

(** X2.  [read_config] on a dotted key [a.b] with different parts: the
    value under [b] in the dict under [a] ([None] if [b] is not there);
    when [a] is absent or null the function logs that [b] is not present
    and returns [None]; when [a] holds anything else it ends with
    [AttributeError]. *)
Theorem read_config_of_dotted_key
    (h : host) (conf : string) (d : gmap string yaml) (a b : string) :
  env h !! "CONF" = Some conf →
  fs h !! conf = Some (File (Yaml (YDict d))) →
  d ≠ ∅ →
  dot_free a = true → dot_free b = true → a ≠ b →
  read_config [a +:+ "." +:+ b] h =
  match d !! a with
  | Some (YDict inner) => (Ok (default YNull (inner !! b)), h)
  | Some YNull | None =>
      (Ok YNull,
       add_log (Log WARNING "Key {} not present in the configuration file. Skip." [YStr b]) h)
  | Some _ => (Raise AttributeError, h)
  end.
Proof.
  intros He Hf Hd Ha Hb Hab. unfold read_config.
  rewrite (bind_ok _ _ _ _ _ (load_config_ok _ _ _ He Hf Hd)).
  unfold read_items. rewrite (split_on_dotted _ _ Ha), (split_on_dot_free _ Hb).
  assert (Hne : String.eqb a b = false) by by apply String.eqb_neq.
  simpl. run. rewrite Hne, String.eqb_refl.
  destruct (d !! a) as [[ | | | | |inner]|]; reflexivity.
Qed.

(** X3.  [read_config] selects what it returns by comparing each part
    with the last one, not by position: for a dotted key whose two parts
    are equal, [a.a], it returns the dict under [a], not the value under
    [a] inside it. *)
Theorem read_config_of_repeated_part
    (h : host) (conf : string) (d inner : gmap string yaml) (a : string) :
  env h !! "CONF" = Some conf →
  fs h !! conf = Some (File (Yaml (YDict d))) →
  dot_free a = true →
  d !! a = Some (YDict inner) →
  read_config [a +:+ "." +:+ a] h = (Ok (YDict inner), h).
Proof.
  intros He Hf Ha Hda.
  assert (Hd : d ≠ ∅) by (intros ->; by rewrite lookup_empty in Hda).
  unfold read_config.
  rewrite (bind_ok _ _ _ _ _ (load_config_ok _ _ _ He Hf Hd)).
  unfold read_items. rewrite (split_on_dotted _ _ Ha), (split_on_dot_free _ Ha).
  simpl. run. rewrite String.eqb_refl, Hda. reflexivity.
Qed.

(** X4.  How [read_config] fails to load: when the file behind [CONF] is
    missing it logs an error and raises [FileNotFoundError] again, and when
    the loaded document is empty (falsy) its assert fails. *)
Theorem read_config_load_errors (h : host) (conf : string) (items : list string) :
  env h !! "CONF" = Some conf →
  (fs h !! conf = None →
   read_config items h =
   (Raise (FileNotFoundError conf),
    add_log (Log ERROR ".env file is not present. Try to rerun commandwith --conf </path/to/conf.yaml> parameter" []) h)) ∧
  (∀ y, fs h !! conf = Some (File (Yaml y)) → truthy y = false →
   read_config items h = (Raise AssertionError, h)).
Proof.
  intros He. split.
  - intros Hf. unfold read_config, load_config, try_except, read_env, yaml_load, open_r.
    run. rewrite He. simpl. by rewrite Hf.
  - intros y Hf Hy. unfold read_config, load_config, try_except, read_env, yaml_load, open_r.
    run. rewrite He. simpl. rewrite Hf. simpl. by rewrite Hy.
Qed.

(** X5.  [read_config] only reads: whatever the keys and however it
    ends, settings, files, accounts, programs and trace are as before;
    the log is all it may add to. *)
Theorem read_config_changes_only_the_log (items : list string) (h : host) :
  only_logs h (read_config items h).2.
Proof. apply only_logs_read_config. Qed.

(** X6.  [add_restore] is all or nothing: whenever it ends with an
    exception (no [CONF], unreadable or ill-formed document, no restore
    list), nothing was written; only the log may have grown. *)
Theorem add_restore_failure_changes_nothing
    (type_ src : string) (backup : option string) (h : host) (e : exn) (h' : host) :
  add_restore type_ src backup h = (Raise e, h') → only_logs h h'.
Proof.
  intros E.
  destruct (add_restore_cases type_ src backup h)
    as [(e2 & h2 & E2 & L)|(conf & d & l & h2 & _ & E2 & _)]; rewrite E in E2; by simplify_eq.
Qed.

Lemma read_config_of_top_level_keys_witness :
  read_config ["ca_dir"; "local_user"] Scenario.fresh =
  (match ["ca_dir"; "local_user"] with
   | [] => Raise IndexError
   | [k] => Ok (default YNull (Scenario.document !! k))
   | _ => Ok (YList (map (λ k, default YNull (Scenario.document !! k))
                       ["ca_dir"; "local_user"]))
   end, Scenario.fresh).
Proof.
  apply (read_config_of_top_level_keys Scenario.fresh Scenario.conf_path Scenario.document).
  - reflexivity.
  - reflexivity.
  - compute_done.
  - repeat constructor.
Defined.

Lemma read_config_of_dotted_key_witness :
  read_config ["local_user" +:+ "." +:+ "name"] Scenario.fresh =
  match Scenario.document !! "local_user" with
  | Some (YDict inner) => (Ok (default YNull (inner !! "name")), Scenario.fresh)
  | Some YNull | None =>
      (Ok YNull,
       add_log (Log WARNING "Key {} not present in the configuration file. Skip."
                  [YStr "name"]) Scenario.fresh)
  | Some _ => (Raise AttributeError, Scenario.fresh)
  end.
Proof.
  apply (read_config_of_dotted_key Scenario.fresh Scenario.conf_path Scenario.document
           "local_user" "name").
  - reflexivity.
  - reflexivity.
  - compute_done.
  - reflexivity.
  - reflexivity.
  - discriminate.
Defined.

Lemma read_config_of_repeated_part_witness :
  read_config ["local_user" +:+ "." +:+ "local_user"] Scenario.fresh =
  (Ok (YDict (<["name" := YStr "alice"]> ∅)), Scenario.fresh).
Proof.
  apply (read_config_of_repeated_part Scenario.fresh Scenario.conf_path Scenario.document
           (<["name" := YStr "alice"]> ∅) "local_user"); reflexivity.
Defined.

Lemma read_config_load_errors_witness :
  read_config ["restore"] Scenario.unconfigured =
    (Raise (FileNotFoundError Scenario.conf_path),
     add_log (Log ERROR ".env file is not present. Try to rerun commandwith --conf </path/to/conf.yaml> parameter" []) Scenario.unconfigured) ∧
  read_config ["restore"] Scenario.blank = (Raise AssertionError, Scenario.blank).
Proof.
  split.
  - apply (read_config_load_errors Scenario.unconfigured Scenario.conf_path ["restore"]).
    + reflexivity.
    + vm_compute. reflexivity.
  - apply (read_config_load_errors Scenario.blank Scenario.conf_path ["restore"])
      with (y := YNull).
    + reflexivity.
    + vm_compute. reflexivity.
    + reflexivity.
Defined.

Lemma add_restore_failure_changes_nothing_witness :
  only_logs Scenario.listless
    (add_restore "file" "/etc/sssd/sssd.conf" None Scenario.listless).2.
Proof.
  apply (add_restore_failure_changes_nothing "file" "/etc/sssd/sssd.conf" None
           Scenario.listless (KeyError "restore")).
  vm_compute. reflexivity.
Defined.

(** ** [check_config], [check_semodule], [general_setup] *)

(** The fields of [fields] that the document lacks, in their order. *)
Definition missing_fields (d : gmap string yaml) (fields : list string) : list string :=
  filter (λ f, d !! f = None) fields.

Definition field_warning (f : string) : logrec :=
  Log WARNING "Field {} is not present in the config." [YStr f].

Lemma check_fields_spec d fields : ∀ result h,
  ∃ h', check_fields d fields result h =
          (Ok (result && bool_decide (missing_fields d fields = [])), h') ∧
        only_logs h h' ∧
        log h' = log h ++ map field_warning (missing_fields d fields).
Proof.
  induction fields as [|f fields IH]; intros result h.
  - exists h. simpl. rewrite andb_true_r, app_nil_r. done.
  - simpl. unfold missing_fields. rewrite filter_cons.
    destruct (d !! f) as [v|] eqn:Hf.
    + rewrite decide_False by done. apply IH.
    + rewrite decide_True by done.
      rewrite (bind_ok (logger _ _ _) _ h tt (add_log (field_warning f) h) eq_refl).
      destruct (IH false (add_log (field_warning f) h)) as (h' & E & L & Hl).
      exists h'. rewrite E. split; [by rewrite andb_false_r|].
      split; [exact L|]. rewrite Hl. simpl. by rewrite <- app_assoc.
Qed.

(** X7.  [check_config] on a file that holds a non-empty dict: it returns
    [True] exactly when none of the eleven required fields is missing, logs
    one warning for each missing field, in the order of [fields], and the
    debug line only when all are there; it changes nothing but the log. *)
Theorem check_config_reports_missing_fields
    (conf : string) (h : host) (d : gmap string yaml) :
  fs h !! conf = Some (File (Yaml (YDict d))) →
  d ≠ ∅ →
  let missing := missing_fields d required_fields in
  let out := check_config conf h in
  out.1 = Ok (bool_decide (missing = [])) ∧
  only_logs h out.2 ∧
  log out.2 = log h ++ map field_warning missing ++
              (if bool_decide (missing = [])
               then [Log DEBUG "Configuration file is OK." []] else []).
Proof.
  intros Hf Hd. cbv zeta. unfold check_config, yaml_load, open_r.
  generalize required_fields. intros fields. run.
  rewrite Hf. simpl. rewrite (bool_decide_eq_false_2 _ Hd). simpl.
  destruct (check_fields_spec d fields true h) as (h' & E & L & Hl).
  rewrite E. simpl.
  destruct (bool_decide (missing_fields d fields = [])); simpl.
  - split; [done|]. split; [exact L|]. rewrite Hl. by rewrite <- app_assoc.
  - split; [done|]. split; [exact L|]. by rewrite Hl, app_nil_r.
Qed.


Lemma check_config_reports_missing_fields_witness :
  let missing := missing_fields Scenario.document required_fields in
  let out := check_config Scenario.conf_path Scenario.fresh in
  out.1 = Ok (bool_decide (missing = [])) ∧
  only_logs Scenario.fresh out.2 ∧
  log out.2 = log Scenario.fresh ++ map field_warning missing ++
              (if bool_decide (missing = [])
               then [Log DEBUG "Configuration file is OK." []] else []).
Proof.
  apply (check_config_reports_missing_fields
           Scenario.conf_path Scenario.fresh Scenario.document).
  - reflexivity.
  - compute_done.
Defined.

(** The document of the scenario has two of the eleven fields. *)
Example check_config_on_the_scenario :
  let out := check_config Scenario.conf_path Scenario.fresh in
  out.1 = Ok false ∧
  map args (log out.2) =
    map (λ f, [YStr f])
      ["root_passwd"; "ipa_server_root"; "ipa_server_ip"; "ipa_server_hostname";
       "ipa_client_hostname"; "ipa_domain"; "ipa_realm"; "ipa_server_admin_passwd";
       "ipa_user"].
Proof. by_running. Qed.

Lemma check_semodule_cases h :
  ∃ e rc h1, check_semodule h = (Raise e, h1) ∧
             trace h1 = trace h ++ [EvExec ["semodule"; "-l"] rc].
Proof.
  unfold check_semodule, str_stdout, check_output, run_program, external. run.
  destruct (programs h ["semodule"; "-l"] (fs h) (users h)) as [[rc f'] u']. simpl.
  destruct (rc =? 0); simpl; eexists _, rc, _; (split; [reflexivity|]); reflexivity.
Qed.

Section GeneralSetup.

Variables (GENERAL_SETUP : string) (int_ : string → result Z) (install_missing : bool).

Lemma general_setup_when_ready h v :
  env h !! "READY" = Some v → int_ v = Ok 1 →
  general_setup GENERAL_SETUP int_ install_missing h = (Ok tt, h).
Proof.
  intros Hv Hi. unfold general_setup, read_env_int. run. by rewrite Hv, Hi.
Qed.

Lemma general_setup_when_cast_fails h v e :
  env h !! "READY" = Some v → int_ v = Raise e →
  general_setup GENERAL_SETUP int_ install_missing h = (Raise e, h).
Proof.
  intros Hv Hi. unfold general_setup, read_env_int. run. by rewrite Hv, Hi.
Qed.

Lemma general_setup_when_not_ready h :
  (env h !! "READY" = None ∨
   ∃ v ready, env h !! "READY" = Some v ∧ int_ v = Ok ready ∧ ready ≠ 1) →
  ∃ e rc h1,
    general_setup GENERAL_SETUP int_ install_missing h = (Raise e, h1) ∧
    trace h1 = trace h ++ [EvExec ["semodule"; "-l"] rc].
Proof.
  intros Hcase.
  destruct (check_semodule_cases h) as (e & rc & h1 & E & T).
  exists e, rc, h1. split; [|exact T].
  unfold general_setup, read_env_int. cbv zeta.
  unfold mbind at 1, M_bind at 1, bind at 1.
  destruct Hcase as [->|(v & ready & -> & -> & Hne)].
  - simpl. apply bind_raise. exact E.
  - destruct (Z.eqb_spec ready 1) as [|_]; [done|]. simpl. apply bind_raise. exact E.
Qed.

(** X9.  [general_setup] never runs the script [GENERAL_SETUP]: it
    returns, having done nothing, exactly when [READY] is set and casts to
    1; in every other case it ends with an exception inside or before
    [check_semodule], and the only program it has run is [semodule -l]. *)
Theorem general_setup_never_runs_its_script (h : host) :
  let out := general_setup GENERAL_SETUP int_ install_missing h in
  (out.1 = Ok tt ↔ ∃ v, env h !! "READY" = Some v ∧ int_ v = Ok 1) ∧
  (out.1 = Ok tt → out.2 = h) ∧
  (∀ cmd rc, EvExec cmd rc ∈ new_events h out.2 → cmd = ["semodule"; "-l"]).
Proof.
  cbv zeta.
  assert (Hnew : new_events h h = []) by (unfold new_events; by rewrite drop_all).
  assert (Hnot : (env h !! "READY" = None ∨
                  ∃ v ready, env h !! "READY" = Some v ∧ int_ v = Ok ready ∧ ready ≠ 1) →
                 ¬ ∃ v, env h !! "READY" = Some v ∧ int_ v = Ok 1).
  { intros [E|(v & ready & E & Hi & Hne)] (v' & E' & Hi'); rewrite E in E'; [done|].
    injection E' as <-. rewrite Hi in Hi'. by injection Hi'. }
  assert (Hcases : (∃ v, env h !! "READY" = Some v ∧ int_ v = Ok 1) ∨
                   (∃ v e, env h !! "READY" = Some v ∧ int_ v = Raise e) ∨
                   (env h !! "READY" = None ∨
                    ∃ v ready, env h !! "READY" = Some v ∧ int_ v = Ok ready ∧ ready ≠ 1)).
  { destruct (env h !! "READY") as [v|]; [|by right; right; left].
    destruct (int_ v) as [ready|e] eqn:Hi; [|right; left; by exists v, e].
    destruct (Z.eq_dec ready 1) as [->|Hne]; [left; by exists v|].
    right. right. right. by exists v, ready. }
  destruct Hcases as [(v & Hv & Hi)|[(v & e & Hv & Hi)|Hcase]].
  - rewrite (general_setup_when_ready h v Hv Hi). simpl. rewrite Hnew.
    split; [split; [intros _; by exists v | done]|]. split; [done|].
    intros cmd rc Hin. by apply elem_of_nil in Hin.
  - rewrite (general_setup_when_cast_fails h v e Hv Hi). simpl. rewrite Hnew.
    split; [split; [discriminate|]|].
    { intros (v' & E' & Hi'). rewrite Hv in E'. injection E' as <-.
      rewrite Hi in Hi'. discriminate. }
    split; [discriminate|]. intros cmd rc Hin. by apply elem_of_nil in Hin.
  - destruct (general_setup_when_not_ready h Hcase) as (e & rc & h1 & -> & T). simpl.
    split; [split; [discriminate | intros H; by destruct (Hnot Hcase H)]|].
    split; [discriminate|].
    intros cmd rc'. unfold new_events. rewrite T, drop_app_length.
    intros [=]%list_elem_of_singleton. by subst.
Qed.

End GeneralSetup.

(** ** [setup_ca_], [prep_tmp_dirs], [prepare_dir] *)


(** X11.  [prep_tmp_dirs] reads all its settings before it makes any
    directory: when one of [CA_DIR], [TMP], [BACKUP] is not set it ends
    with [UndefinedValueError] and the host exactly as it was. *)
Theorem prep_tmp_dirs_needs_every_setting (h : host) :
  env h !! "CA_DIR" = None ∨ env h !! "TMP" = None ∨ env h !! "BACKUP" = None →
  ∃ item, prep_tmp_dirs h = (Raise (UndefinedValueError item), h).
Proof.
  intros Hmiss. unfold prep_tmp_dirs, read_env. run.
  destruct (env h !! "CA_DIR") as [ca|]; simpl; [|by eexists].
  destruct (env h !! "TMP") as [tmp|]; simpl; [|by eexists].
  destruct (env h !! "BACKUP") as [bak|]; simpl; [|by eexists].
  by destruct Hmiss as [|[|]].
Qed.

(** X12.  [prepare_dir] is idempotent: after a run that returned, the
    directory (and its [conf] below it, if asked for) is there, and a
    second run returns too, makes no directory and leaves the file system
    as it is. *)
Theorem prepare_dir_is_idempotent (dir_path : string) (conf : bool) (h h1 : host) :
  prepare_dir dir_path conf h = (Ok tt, h1) →
  fs h1 !! dir_path = Some Dir ∧
  (conf = true → fs h1 !! join dir_path "conf" = Some Dir) ∧
  ∃ h2, prepare_dir dir_path conf h1 = (Ok tt, h2) ∧
        fs h2 = fs h1 ∧ trace h2 = trace h1.
Proof.
  unfold prepare_dir, mkdir_p. run. intros E.
  destruct (fs h !! dir_path) as [[c|]|] eqn:Hd; simpl in E; [discriminate| |].
  - destruct conf; simpl in E.
    + destruct (fs h !! join dir_path "conf") as [[c|]|] eqn:Hc; simpl in E;
        [discriminate| |]; injection E as <-; simpl.
      * rewrite Hd, Hc. simpl. rewrite Hc. eauto 10.
      * destruct (decide (join dir_path "conf" = dir_path)) as [Heq|Hne].
        { rewrite Heq in Hc. congruence. }
        rewrite lookup_insert_ne, Hd, lookup_insert_eq by done. simpl.
        rewrite lookup_insert_eq. eauto 10.
    + injection E as <-. simpl. rewrite Hd. simpl. split; [done|]. split; [done|]. eauto.
  - destruct conf; simpl in E.
    + destruct (decide (join dir_path "conf" = dir_path)) as [Heq|Hne].
      * rewrite Heq, lookup_insert_eq in E. simpl in E. injection E as <-. simpl.
        rewrite Heq, !lookup_insert_eq. simpl. rewrite lookup_insert_eq. eauto 10.
      * rewrite lookup_insert_ne in E by done.
        destruct (fs h !! join dir_path "conf") as [[c|]|] eqn:Hc; simpl in E;
          [discriminate| |]; injection E as <-; simpl.
        -- rewrite lookup_insert_eq, lookup_insert_ne, Hc by done. simpl.
           rewrite lookup_insert_ne, Hc by done. eauto 10.
        -- rewrite lookup_insert_ne, !lookup_insert_eq by done. simpl.
           rewrite lookup_insert_eq. eauto 10.
    + injection E as <-. simpl. rewrite lookup_insert_eq. simpl.
      split; [done|]. split; [done|]. eauto.
Qed.

Lemma prep_tmp_dirs_needs_every_setting_witness :
  ∃ item, prep_tmp_dirs Scenario.fresh = (Raise (UndefinedValueError item), Scenario.fresh).
Proof.
  apply (prep_tmp_dirs_needs_every_setting Scenario.fresh).
  right. left. reflexivity.
Defined.

Lemma prepare_dir_is_idempotent_witness :
  fs (prepare_dir "/opt/bob" true Scenario.fresh).2 !! "/opt/bob" = Some Dir ∧
  (true = true →
   fs (prepare_dir "/opt/bob" true Scenario.fresh).2 !! join "/opt/bob" "conf" = Some Dir) ∧
  ∃ h2, prepare_dir "/opt/bob" true (prepare_dir "/opt/bob" true Scenario.fresh).2 =
          (Ok tt, h2) ∧
        fs h2 = fs (prepare_dir "/opt/bob" true Scenario.fresh).2 ∧
        trace h2 = trace (prepare_dir "/opt/bob" true Scenario.fresh).2.
Proof.
  apply (prepare_dir_is_idempotent "/opt/bob" true Scenario.fresh).
  vm_compute. reflexivity.
Defined.

(** ** More of the cleanup engine *)

Lemma rmtree_fs_lookup p m k :
  rmtree_fs p m !! k = if under p k then None else m !! k.
Proof.
  unfold rmtree_fs. destruct (under p k) eqn:Hu.
  - apply map_lookup_filter_None. right. intros x _. simpl. by rewrite Hu.
  - destruct (m !! k) as [x|] eqn:Hk.
    + apply map_lookup_filter_Some. by split.
    + apply map_lookup_filter_None. by left.
Qed.

(** X13.  A Directory record without backup never fails: when the target
    is a directory, it and all that lies below it are gone and every other
    path is as it was; when it is not (absent, or a plain file), the error
    of [rmtree] is ignored and the file system is unchanged.  The accounts
    stay. *)
Theorem cleanup_of_dir_without_backup_removes_the_tree (src : string) (h : host) :
  let out := cleanup_item (restore_record "dir" src None) h in
  out.1 = Ok tt ∧
  users out.2 = users h ∧
  (fs h !! src = Some Dir →
   ∀ k, fs out.2 !! k = if under src k then None else fs h !! k) ∧
  (fs h !! src ≠ Some Dir → fs out.2 = fs h).
Proof.
  cbv zeta.
  destruct (restore_record_lookup "dir" src None) as (d & -> & Ht & Hs & Hb & _).
  unfold cleanup_item, subscript, rmtree_ignore_errors. run. rewrite Ht, Hs, Hb. simpl.
  destruct (fs h !! src) as [[c|]|]; simpl; repeat split; try done.
  intros _ k. apply rmtree_fs_lookup.
Qed.

(** X14.  A Directory record with a backup, when a plain file stands at
    the target: [rmtree] ignores that it cannot remove a file, so the
    target is still there when [copytree] wants to create it, and the
    reversal ends with [FileExistsError], the file system unchanged. *)
Theorem cleanup_of_dir_with_backup_over_a_file_fails
    (src b : string) (c : content) (h : host) :
  fs h !! src = Some (File c) →
  fs h !! b = Some Dir →
  b ≠ "" →
  cleanup_item (restore_record "dir" src (Some b)) h =
  (Raise (FileExistsError src), add_log (Log DEBUG "Directory {} is deleted" [YStr src]) h).
Proof.
  intros Hs Hb Hne.
  destruct (restore_record_lookup "dir" src (Some b)) as (d & -> & Ht & Hsrc & Hbk & _).
  unfold cleanup_item, subscript, rmtree_ignore_errors, copytree. run.
  rewrite Ht, Hsrc, Hbk. simpl.
  apply String.eqb_neq in Hne. rewrite Hne. simpl. rewrite Hs. simpl. rewrite Hb, Hs.
  reflexivity.
Qed.

Lemma cleanup_item_file_restore src b c h :
  b ≠ "" → b ≠ src →
  fs h !! b = Some (File c) →
  fs h !! src ≠ Some Dir →
  cleanup_item (restore_record "file" src (Some b)) h =
  (Ok tt, add_log (Log DEBUG "File {} is restored form {}" [YStr src; YStr b])
            (emit (EvCopyfile b src) (set_fs (insert src (File c)) h))).
Proof.
  intros Hne Hbs Hb Hs. rewrite cleanup_item_file. simpl.
  apply String.eqb_neq in Hne. rewrite Hne.
  apply String.eqb_neq in Hbs.
  unfold copyfile. run. rewrite Hb, Hbs.
  by destruct (fs h !! src) as [[c'|]|].
Qed.

(** X15.  A File record with a backup location, reversed on a host where
    the backup is a file and the target is not a directory: the target
    holds the backup's content afterwards, no other path and no account
    changes, and the one event is the copy from the backup to the target. *)
Theorem cleanup_of_file_with_backup_restores_the_content
    (src b : string) (c : content) (h : host) :
  b ≠ "" → b ≠ src →
  fs h !! b = Some (File c) →
  fs h !! src ≠ Some Dir →
  ∃ h', cleanup_item (restore_record "file" src (Some b)) h = (Ok tt, h') ∧
        fs h' = <[src := File c]> (fs h) ∧
        users h' = users h ∧
        trace h' = trace h ++ [EvCopyfile b src].
Proof.
  intros Hne Hbs Hb Hs. eexists. split.
  - by apply cleanup_item_file_restore.
  - by repeat split.
Qed.


Lemma cleanup_of_dir_with_backup_over_a_file_fails_witness :
  cleanup_item (restore_record "dir" "/tmp/stale" (Some "/home/alice")) Scenario.fresh =
  (Raise (FileExistsError "/tmp/stale"),
   add_log (Log DEBUG "Directory {} is deleted" [YStr "/tmp/stale"]) Scenario.fresh).
Proof.
  apply (cleanup_of_dir_with_backup_over_a_file_fails
           "/tmp/stale" "/home/alice" (Text "stale") Scenario.fresh).
  - reflexivity.
  - reflexivity.
  - discriminate.
Defined.

Lemma cleanup_of_file_with_backup_restores_the_content_witness :
  ∃ h', cleanup_item (restore_record "file" "/tmp/stale" (Some "/home/alice/.profile"))
          Scenario.fresh = (Ok tt, h') ∧
        fs h' = <["/tmp/stale" := File (Text "PATH=/bin")]> (fs Scenario.fresh) ∧
        users h' = users Scenario.fresh ∧
        trace h' = trace Scenario.fresh ++ [EvCopyfile "/home/alice/.profile" "/tmp/stale"].
Proof.
  apply (cleanup_of_file_with_backup_restores_the_content
           "/tmp/stale" "/home/alice/.profile" (Text "PATH=/bin") Scenario.fresh).
  - discriminate.
  - discriminate.
  - reflexivity.
  - vm_compute. discriminate.
Defined.


(** The same record on two hosts: where [userdel] works, alice and her
    home directory are gone; where it exits with 1, the reversal ends with
    [CalledProcessError] and alice is still there. *)
Example username_record_on_two_hosts :
  let item := YDict (<["type" := YStr "user"]> (<["username" := YStr "alice"]> ∅)) in
  let good := cleanup_item item Scenario.fresh in
  let bad := cleanup_item item Scenario.broken in
  good.1 = Ok tt ∧
  users good.2 !! "alice" = None ∧
  fs good.2 !! "/home/alice" = None ∧
  bad.1 = Raise (CalledProcessError ["userdel"; "alice"; "-r"] 1) ∧
  users bad.2 !! "alice" = Some "/home/alice" ∧
  fs bad.2 !! "/home/alice" = Some Dir.
Proof. by_running. Qed.

(** X20.  An appended File record goes through the stored journal and
    back: on a host whose restore list is empty, [add_restore] for a target
    with a backup file, followed by a pass of [cleanup_] over the list that
    [read_config] loads, leaves the backup's content at the target and the
    backup in place. *)
Theorem append_then_cleanup_restores_the_file
    (h : host) (conf : string) (d : gmap string yaml) (src b : string) (c : content) :
  env h !! "CONF" = Some conf →
  fs h !! conf = Some (File (Yaml (YDict d))) →
  d !! "restore" = Some (YList []) →
  b ≠ "" → b ≠ src → b ≠ conf →
  fs h !! b = Some (File c) →
  fs h !! src ≠ Some Dir →
  ∃ h', (add_restore "file" src (Some b) ≫= λ _,
         read_config ["restore"] ≫= λ restore,
         match restore with
         | YList l => cleanup_ l
         | _ => raise TypeError
         end) h = (Ok tt, h') ∧
        fs h' !! src = Some (File c) ∧
        fs h' !! b = Some (File c).
Proof.
  intros He Hf Hr Hne Hbs Hbc Hb Hs.
  set (record := restore_record "file" src (Some b)).
  set (h1 := appended conf d [] "file" src (Some b) h).
  assert (E1 : add_restore "file" src (Some b) h = (Ok tt, h1)) by by apply add_restore_ok.
  assert (Hf1 : fs h1 = <[conf := File (Yaml (YDict (<["restore" := YList [record]]> d)))]>
                          (fs h)) by reflexivity.
  assert (E2 : read_config ["restore"] h1 = (Ok (YList [record]), h1)).
  { eapply read_config_restore.
    - exact He.
    - rewrite Hf1. apply lookup_insert_eq.
    - apply lookup_insert_eq. }
  pose proof (cleanup_item_file_restore src b c h1 Hne Hbs) as E3.
  assert (Hfs : ∀ r e f h0, fs (add_log r (emit e (set_fs f h0))) = f (fs h0))
    by reflexivity.
  eexists.
  rewrite (bind_ok _ _ _ _ _ E1), (bind_ok _ _ _ _ _ E2).
  split; [|split].
  - rewrite cleanup_cons. unfold record. rewrite E3; [reflexivity| |].
    + rewrite Hf1. by rewrite lookup_insert_ne.
    + rewrite Hf1. destruct (decide (conf = src)) as [->|Hcs].
      * rewrite lookup_insert_eq. discriminate.
      * by rewrite lookup_insert_ne.
  - rewrite Hfs. apply lookup_insert_eq.
  - rewrite Hfs, lookup_insert_ne, Hf1, lookup_insert_ne by done. exact Hb.
Qed.

Lemma append_then_cleanup_restores_the_file_witness :
  ∃ h', (add_restore "file" "/tmp/stale" (Some "/home/alice/.profile") ≫= λ _,
         read_config ["restore"] ≫= λ restore,
         match restore with
         | YList l => cleanup_ l
         | _ => raise TypeError
         end) Scenario.fresh = (Ok tt, h') ∧
        fs h' !! "/tmp/stale" = Some (File (Text "PATH=/bin")) ∧
        fs h' !! "/home/alice/.profile" = Some (File (Text "PATH=/bin")).
Proof.
  apply (append_then_cleanup_restores_the_file Scenario.fresh Scenario.conf_path
           Scenario.document "/tmp/stale" "/home/alice/.profile" (Text "PATH=/bin")).
  - reflexivity.
  - reflexivity.
  - reflexivity.
  - discriminate.
  - discriminate.
  - discriminate.
  - reflexivity.
  - vm_compute. discriminate.
Defined.

(** ** More of [setup_virt_card_] *)

(** X17.  A user with a certificate but no key: [setup_virt_card_] has
    already extended the command by [--cert] when the missing key sends it
    to the fallback, so the script is run with both [--cert] and [--ca]
    (shown for a user that is not local, where the script is the only
    thing run). *)
Theorem setup_virt_card_with_cert_but_no_key_passes_both
    (SETUP_VSC : string) (user : sc_user) (c ca_dir : string) (h : host) :
  local user = false →
  nonempty (cert user) = Some c →
  nonempty (key user) = None →
  env h !! "CA_DIR" = Some ca_dir →
  ∃ rc, trace (setup_virt_card_ SETUP_VSC user h).2 =
        trace h ++ [EvExec (["bash"; SETUP_VSC; "--dir"; card_dir user;
                             "--username"; name user] ++ ["--cert"; c] ++ ["--ca"; ca_dir])
                      rc].
Proof.
  intros Hl Hc Hk He.
  unfold setup_virt_card_, read_env, try_except, check_output, run_program, external.
  rewrite Hl, Hc, Hk. run. rewrite He. simpl.
  destruct (programs h _ (fs h) (users h)) as [[rc f'] u']. simpl.
  exists rc. by destruct (rc =? 0).
Qed.

(** X18.  For a local user whose account is already there, the first
    thing [setup_virt_card_] does to the system, with no [useradd] before
    it, is to set the account's password to the one of the configuration;
    none of what follows appends a restore record. *)
Theorem setup_virt_card_resets_the_password_of_an_existing_account
    (SETUP_VSC : string) (user : sc_user) (home : string) (h : host) :
  local user = true →
  users h !! name user = Some home →
  ∃ rest, trace (setup_virt_card_ SETUP_VSC user h).2 =
          trace h ++ EvPasswd (name user) (passwd user) :: rest ∧
          Forall not_append rest.
Proof.
  intros Hl Hu.
  set (h1 := add_log (Log DEBUG "Password for user {} is updated to {}"
                        [YStr (name user); YStr (passwd user)])
               (emit (EvPasswd (name user) (passwd user)) h)).
  unfold setup_virt_card_. cbv zeta. rewrite Hl.
  rewrite bind_assoc.
  assert (E : try_finally
                (try_except (getpwnam (name user) ≫= λ _, ret tt) is_KeyError
                   (λ _, check_output ["useradd"; name user; "-m"] ≫= λ _,
                         logger DEBUG "Local user {} is added to the system with a password {}"
                           [YStr (name user); YStr (passwd user)]))
                (popen_passwd (name user) (passwd user) ≫= λ _,
                 logger DEBUG "Password for user {} is updated to {}"
                   [YStr (name user); YStr (passwd user)]) h = (Ok tt, h1)).
  { unfold try_finally, try_except, getpwnam, popen_passwd. run. by rewrite Hu. }
  rewrite (bind_ok _ _ _ _ _ E).
  match goal with
  | |- context [trace (?m h1).2] =>
      assert (G : preserves (grows not_append) m)
  end.
  { walk. }
  destruct (G h1) as (rest & T & F). exists rest. split; [|exact F].
  rewrite T. unfold h1. simpl. by rewrite <- app_assoc.
Qed.

Lemma setup_virt_card_with_cert_but_no_key_witness :
  ∃ rc, trace (setup_virt_card_ "/usr/share/setup_virt_card.sh"
                 (ScUser "carol" "/opt/carol" "secret" false (Some "/opt/carol/cert.pem") None)
                 Scenario.fresh).2 =
        trace Scenario.fresh ++
        [EvExec (["bash"; "/usr/share/setup_virt_card.sh"; "--dir";
                  card_dir (ScUser "carol" "/opt/carol" "secret" false
                              (Some "/opt/carol/cert.pem") None);
                  "--username";
                  name (ScUser "carol" "/opt/carol" "secret" false
                          (Some "/opt/carol/cert.pem") None)]
                 ++ ["--cert"; "/opt/carol/cert.pem"] ++ ["--ca"; "/var/ca"]) rc].
Proof.
  apply (setup_virt_card_with_cert_but_no_key_passes_both
           "/usr/share/setup_virt_card.sh"
           (ScUser "carol" "/opt/carol" "secret" false (Some "/opt/carol/cert.pem") None)
           "/opt/carol/cert.pem" "/var/ca" Scenario.fresh); reflexivity.
Defined.

Lemma setup_virt_card_resets_the_password_witness :
  ∃ rest, trace (setup_virt_card_ "/usr/share/setup_virt_card.sh"
                   (ScUser "alice" "/opt/alice" "secret" true None None)
                   Scenario.fresh).2 =
          trace Scenario.fresh ++
          EvPasswd (name (ScUser "alice" "/opt/alice" "secret" true None None))
                   (passwd (ScUser "alice" "/opt/alice" "secret" true None None)) :: rest ∧
          Forall not_append rest.
Proof.
  apply (setup_virt_card_resets_the_password_of_an_existing_account
           "/usr/share/setup_virt_card.sh"
           (ScUser "alice" "/opt/alice" "secret" true None None) "/home/alice"
           Scenario.fresh); reflexivity.
Defined.

(** ** What the checks and helpers never do *)

Lemma not_append_id e : not_append e → not_append e.
Proof. done. Qed.

#[global] Hint Resolve not_append_id : effects.

Lemma quiet_check_fields d fields : ∀ result,
  preserves (grows not_append) (check_fields d fields result).
Proof. induction fields; intros; simpl; walk. Qed.

Lemma quiet_cleanup_item item : preserves (grows not_append) (cleanup_item item).
Proof. unfold cleanup_item. walk. Qed.

Lemma quiet_check_semodule : preserves (grows not_append) check_semodule.
Proof. unfold check_semodule, str_stdout. walk. Qed.

Lemma quiet_read_env_int int_ item d : preserves (grows not_append) (read_env_int int_ item d).
Proof. intros h. unfold read_env_int. destruct (env h !! item); by apply grows_same. Qed.

(** X19.  The checks and helpers beside the provisioning steps append
    nothing to the journal: [check_config], [check_semodule],
    [general_setup], [install_ipa_client_], [setup_ipa_server_], the
    cleanup engine and the cleanup command never call [add_restore], on any
    host and however they end. *)
Theorem checks_and_helpers_append_nothing
    (GENERAL_SETUP INSTALL_IPA_CLIENT SETUP_IPA_SERVER CLEANUP_CA : string)
    (int_ : string → result Z) :
  (∀ conf, preserves (grows not_append) (check_config conf)) ∧
  preserves (grows not_append) check_semodule ∧
  (∀ install_missing,
     preserves (grows not_append) (general_setup GENERAL_SETUP int_ install_missing)) ∧
  (∀ ip passwd_,
     preserves (grows not_append) (install_ipa_client_ INSTALL_IPA_CLIENT ip passwd_)) ∧
  preserves (grows not_append) (setup_ipa_server_ SETUP_IPA_SERVER) ∧
  (∀ restore_items, preserves (grows not_append) (cleanup_ restore_items)) ∧
  preserves (grows not_append) (cleanup_ca CLEANUP_CA).
Proof.
  pose proof quiet_check_fields. pose proof quiet_cleanup_item.
  pose proof quiet_check_semodule. pose proof (quiet_read_env_int int_).
  repeat split; intros.
  - unfold check_config. walk.
  - assumption.
  - unfold general_setup. walk.
  - unfold install_ipa_client_. walk.
  - unfold setup_ipa_server_. walk.
  - unfold cleanup_. walk.
  - apply grows_cleanup_ca. done.
Qed.
